(** * Verification of the tiered library store (src/services/library.service.ts)

    The service keeps a catalogue of e-book records and their binary payloads
    in one of three places: Capacitor Preferences plus Filesystem on a native
    host, IndexedDB in a browser, and localStorage as a last resort.  This
    development embeds the service as state-passing functions over a record
    holding the in-memory signal, the plugin handles and the durable stores,
    and proves the properties stated for it. *)

From Stdlib Require Import ZArith NArith List String Ascii Lia Bool ZifyNat.
From Stdlib.Strings Require Import Byte.
From Stdlib Require DecimalString.
From stdpp Require Import base gmap strings list sorting.

Open Scope N_scope.

(** ** JavaScript values used by the service *)

(** A JavaScript string is a sequence of UTF-16 code units.  The codec works
    on this representation; record fields, keys and paths are only compared
    and concatenated, so they are kept as ordinary strings. *)
Definition jsstring := list N.

Definition js (s : string) : jsstring := List.map N_of_ascii (list_ascii_of_string s).

(** What a rejected promise or a thrown exception carries, as far as the
    service can tell the cases apart (it never inspects the value). *)
Inductive Exn :=
| InvalidCharacterError   (* btoa / atob *)
| RequestError            (* an IndexedDB request or transaction failed *)
| PluginError             (* a Capacitor plugin call rejected *)
| StorageError.           (* localStorage threw *)

Inductive result (A : Type) :=
| Ok (a : A)
| Throw (e : Exn).
Arguments Ok {A} a.
Arguments Throw {A} e.

(** ** Radix-64 text encoding: the host functions [btoa] and [atob]

    [btoa] is the forgiving-base64 encoding of RFC 4648 section 4 applied to
    the code units of its argument, which must all be below 256.  [atob] is
    the forgiving-base64 decoding: white space is dropped, up to two trailing
    [=] are dropped from an input whose length is a multiple of four, a
    remaining length of 1 modulo 4 or a character outside the alphabet is an
    error, and the left-over bits of a final partial group are discarded. *)

Definition b64_alphabet : jsstring :=
  Eval vm_compute in
    js "ABCDEFGHIJKLMNOPQRSTUVWXYZabcdefghijklmnopqrstuvwxyz0123456789+/".

Definition EQUALS : N := 61.
Definition COMMA : N := 44.

Definition b64_char (i : N) : N := nth (N.to_nat i) b64_alphabet 0.

Definition b64_index (c : N) : option N :=
  if (65 <=? c) && (c <=? 90) then Some (c - 65)
  else if (97 <=? c) && (c <=? 122) then Some (c - 71)
  else if (48 <=? c) && (c <=? 57) then Some (c + 4)
  else if c =? 43 then Some 62
  else if c =? 47 then Some 63
  else None.

(** The 6-bit groups of a sequence of octets, three octets to four groups. *)
Fixpoint b64_groups (s : list N) : list N :=
  match s with
  | a :: b :: c :: rest =>
      [a / 4; (a mod 4) * 16 + b / 16; (b mod 16) * 4 + c / 64; c mod 64]
        ++ b64_groups rest
  | [a; b] => [a / 4; (a mod 4) * 16 + b / 16; (b mod 16) * 4]
  | [a] => [a / 4; (a mod 4) * 16]
  | [] => []
  end.

Definition b64_padding (n : nat) : jsstring :=
  match Nat.modulo n 3 with
  | 1%nat => [EQUALS; EQUALS]
  | 2%nat => [EQUALS]
  | _ => []
  end.

Definition btoa (s : jsstring) : result jsstring :=
  if forallb (fun c => c <=? 255) s
  then Ok (List.map b64_char (b64_groups s) ++ b64_padding (length s))
  else Throw InvalidCharacterError.

Definition is_ascii_whitespace (c : N) : bool :=
  (c =? 9) || (c =? 10) || (c =? 12) || (c =? 13) || (c =? 32).

Definition strip_padding (d : jsstring) : jsstring :=
  if (Nat.modulo (length d) 4 =? 0)%nat then
    match rev d with
    | 61 :: 61 :: r => rev r
    | 61 :: r => rev r
    | _ => d
    end
  else d.

Fixpoint b64_indices (d : jsstring) : option (list N) :=
  match d with
  | [] => Some []
  | c :: r =>
      match b64_index c, b64_indices r with
      | Some i, Some v => Some (i :: v)
      | _, _ => None
      end
  end.

(** Octets of a sequence of 6-bit groups; a final group of two or three
    sextets gives one or two octets, its low bits being dropped. *)
Fixpoint b64_bytes (v : list N) : list N :=
  match v with
  | s1 :: s2 :: s3 :: s4 :: rest =>
      [s1 * 4 + s2 / 16; (s2 mod 16) * 16 + s3 / 4; (s3 mod 4) * 64 + s4]
        ++ b64_bytes rest
  | [s1; s2; s3] => [s1 * 4 + s2 / 16; (s2 mod 16) * 16 + s3 / 4]
  | [s1; s2] => [s1 * 4 + s2 / 16]
  | _ => []
  end.

Definition atob (s : jsstring) : result jsstring :=
  let d := strip_padding (List.filter (fun c => negb (is_ascii_whitespace c)) s) in
  if (Nat.modulo (length d) 4 =? 1)%nat then Throw InvalidCharacterError
  else match b64_indices d with
       | Some v => Ok (b64_bytes v)
       | None => Throw InvalidCharacterError
       end.

(** ** The codec of the service (UTILITY section of the source) *)

(** [String.fromCharCode(...units)] on the elements of a [Uint8Array]. *)
Definition String_fromCharCode (units : list byte) : jsstring :=
  List.map Byte.to_N units.

(** Storing a number into a [Uint8Array] keeps it modulo 256. *)
Definition ToUint8 (n : N) : byte :=
  match Byte.of_N (n mod 256) with
  | Some b => b
  | None => x00
  end.

(** [bytes.subarray(b, e)]; the end is clamped to the length. *)
Definition subarray (bytes : list byte) (b e : N) : list byte :=
  firstn (N.to_nat e - N.to_nat b) (skipn (N.to_nat b) bytes).

Definition chunkSize : N := 8192.

(** The [for] loop of [_arrayBufferToBase64]: [i] advances by [chunkSize]
    while it is below [bytes.byteLength].  [fuel] bounds the number of
    iterations; [S (length bytes)] is more than the loop ever needs. *)
Fixpoint chunk_loop (fuel : nat) (bytes : list byte) (i : N) (binary : jsstring)
  : jsstring :=
  match fuel with
  | O => binary
  | S fuel' =>
      if i <? N.of_nat (length bytes)
      then chunk_loop fuel' bytes (i + chunkSize)
             (binary ++ String_fromCharCode (subarray bytes i (i + chunkSize)))
      else binary
  end.

Definition _arrayBufferToBase64 (buffer : list byte) : result jsstring :=
  btoa (chunk_loop (S (length buffer)) buffer 0 []).

(** [s.split(sep)] for a one-character separator. *)
Fixpoint split (sep : N) (s : jsstring) : list jsstring :=
  match s with
  | [] => [[]]
  | c :: r =>
      if c =? sep then [] :: split sep r
      else match split sep r with
           | seg :: segs => (c :: seg) :: segs
           | [] => [[c]]
           end
  end.

Definition includes (sep : N) (s : jsstring) : bool := existsb (N.eqb sep) s.

(** The constant [b64] of [_base64ToArrayBuffer], the text handed to [atob].
    An index past the end of an array reads [undefined], which [atob] would
    convert to the string of that name. *)
Definition b64_arg (base64 : jsstring) : jsstring :=
  if includes COMMA base64
  then match nth_error (split COMMA base64) 1 with
       | Some seg => seg
       | None => js "undefined"
       end
  else base64.

Definition _base64ToArrayBuffer (base64 : jsstring) : result (list byte) :=
  match atob (b64_arg base64) with
  | Ok binary => Ok (List.map ToUint8 binary)
  | Throw e => Throw e
  end.

(** The text after the first comma of a string, the comma-free string itself
    otherwise, and the text before the first comma: used to state what the
    decoder strips. *)
Fixpoint after_first (sep : N) (s : jsstring) : jsstring :=
  match s with
  | [] => []
  | c :: r => if c =? sep then r else after_first sep r
  end.

Fixpoint up_to (sep : N) (s : jsstring) : jsstring :=
  match s with
  | [] => []
  | c :: r => if c =? sep then [] else c :: up_to sep r
  end.

Definition count_of (sep : N) (s : jsstring) : nat :=
  length (List.filter (N.eqb sep) s).

(** ** Records and payloads *)

Inductive Level := N5 | N4 | N3 | N2 | N1 | JFT | SEMUA.
Inductive FileType := PDF | URL | IMAGE | LAINNYA.
Inductive Language := ID | JA | EN | BILINGUAL.

Definition FileType_eqb (a b : FileType) : bool :=
  match a, b with
  | PDF, PDF | URL, URL | IMAGE, IMAGE | LAINNYA, LAINNYA => true
  | _, _ => false
  end.

(** [interface UserEbook]; an optional property is [None] when undefined. *)
Record UserEbook := {
  id : string;
  title : string;
  author : string;
  description : string;
  level : Level;
  category : string;
  coverEmoji : string;
  coverColor : string;
  fileType : FileType;
  sourceUrl : option string;
  fileName : option string;
  fileSize : option N;
  fileMimeType : option string;
  totalPages : option N;
  language : Language;
  addedDate : string;
  notes : option string
}.

(** [Omit<UserEbook, 'id' | 'addedDate'>], the argument of [addBook]. *)
Record BookMeta := {
  m_title : string;
  m_author : string;
  m_description : string;
  m_level : Level;
  m_category : string;
  m_coverEmoji : string;
  m_coverColor : string;
  m_fileType : FileType;
  m_sourceUrl : option string;
  m_fileName : option string;
  m_fileSize : option N;
  m_fileMimeType : option string;
  m_totalPages : option N;
  m_language : Language;
  m_notes : option string
}.

(** [Partial<UserEbook>], the argument of [updateBook]: every property of a
    record may be present or not.  [None] is a property the object does not
    have; a present optional property may itself hold undefined. *)
Record BookUpdates := {
  u_id : option string;
  u_title : option string;
  u_author : option string;
  u_description : option string;
  u_level : option Level;
  u_category : option string;
  u_coverEmoji : option string;
  u_coverColor : option string;
  u_fileType : option FileType;
  u_sourceUrl : option (option string);
  u_fileName : option (option string);
  u_fileSize : option (option N);
  u_fileMimeType : option (option string);
  u_totalPages : option (option N);
  u_language : option Language;
  u_addedDate : option string;
  u_notes : option (option string)
}.

(** One property of the object spread [{ ...updated, ...updates }]. *)
Definition spread {A} (old : A) (new : option A) : A :=
  match new with
  | Some v => v
  | None => old
  end.

Definition merge (updated : UserEbook) (updates : BookUpdates) : UserEbook :=
  {| id := spread (id updated) (u_id updates);
     title := spread (title updated) (u_title updates);
     author := spread (author updated) (u_author updates);
     description := spread (description updated) (u_description updates);
     level := spread (level updated) (u_level updates);
     category := spread (category updated) (u_category updates);
     coverEmoji := spread (coverEmoji updated) (u_coverEmoji updates);
     coverColor := spread (coverColor updated) (u_coverColor updates);
     fileType := spread (fileType updated) (u_fileType updates);
     sourceUrl := spread (sourceUrl updated) (u_sourceUrl updates);
     fileName := spread (fileName updated) (u_fileName updates);
     fileSize := spread (fileSize updated) (u_fileSize updates);
     fileMimeType := spread (fileMimeType updated) (u_fileMimeType updates);
     totalPages := spread (totalPages updated) (u_totalPages updates);
     language := spread (language updated) (u_language updates);
     addedDate := spread (addedDate updated) (u_addedDate updates);
     notes := spread (notes updated) (u_notes updates) |}.

(** The run-time value of the [data] property of a [StoredFileData].  Its
    static type is [ArrayBuffer]; the casts of [_idbGetFile] and
    [_nativeGetFile] let through a value that is none, represented here by a
    typed-array view over its bytes. *)
Inductive FileData :=
| ArrayBuffer (bytes : list byte)
| NotABuffer (view : list byte).

(** [interface StoredFileData]. *)
Record StoredFileData := {
  file_id : string;
  file_data : FileData;
  file_mimeType : string
}.

(** The [data] property of an entry of the [files] object store, by the
    shape [_idbGetFile] tests for: an [ArrayBuffer], an [Array] (of numbers),
    or anything else. *)
Inductive IdbData :=
| IdbArrayBuffer (bytes : list byte)
| IdbArray (elems : list Z)
| IdbOther (view : list byte).

Record IdbFile := {
  raw_id : string;
  raw_data : IdbData;
  raw_mimeType : string
}.

(** What [Filesystem.readFile] resolves with in [result.data]: text, or the
    bytes themselves. *)
Inductive FsContent :=
| FsText (text : jsstring)
| FsBytes (bytes : list byte).

Definition DB_NAME := "javsensei-library".
Definition BOOKS_STORE := "books".
Definition FILES_STORE := "files".
Definition META_KEY := "library_meta".
Definition PREFS_BOOKS_KEY := "javsensei_library_books_v2".
Definition FILES_DIR := "ebooks".
Definition DEFAULT_MIME := "application/pdf".

(** ** Dates

    [new Date(s).getTime()] for the date-only form [YYYY-MM-DD], the form
    [addBook] writes: the time value of midnight UTC of that day, computed
    with the day arithmetic of ECMA-262 21.4.1.  Any other string is treated
    as an invalid date, whose time value is NaN ([None]). *)

Definition digit (c : ascii) : option Z :=
  let n := Z.of_N (N_of_ascii c) in
  if ((48 <=? n) && (n <=? 57))%Z then Some (n - 48)%Z else None.

Definition DayFromYear (y : Z) : Z :=
  (365 * (y - 1970) + (y - 1969) / 4 - (y - 1901) / 100 + (y - 1601) / 400)%Z.

Definition InLeapYear (y : Z) : bool :=
  ((y mod 4 =? 0) && (negb (y mod 100 =? 0) || (y mod 400 =? 0)))%Z.

Definition DayWithinYear (y m : Z) : Z :=
  (nth (Z.to_nat (m - 1)) [0; 31; 59; 90; 120; 151; 181; 212; 243; 273; 304; 334] 0
   + (if InLeapYear y && (2 <? m) then 1 else 0))%Z.

Definition msPerDay : Z := 86400000.

Definition Date_getTime (s : string) : option Z :=
  match list_ascii_of_string s with
  | [y1; y2; y3; y4; s1; m1; m2; s2; d1; d2] =>
      match digit y1, digit y2, digit y3, digit y4,
            digit m1, digit m2, digit d1, digit d2 with
      | Some a, Some b, Some c, Some d, Some e, Some f, Some g, Some i =>
          let y := (1000 * a + 100 * b + 10 * c + d)%Z in
          let m := (10 * e + f)%Z in
          let dd := (10 * g + i)%Z in
          if Ascii.eqb s1 "-" && Ascii.eqb s2 "-"
             && (1 <=? m)%Z && (m <=? 12)%Z && (1 <=? dd)%Z && (dd <=? 31)%Z
          then Some ((DayFromYear y + DayWithinYear y m + dd - 1) * msPerDay)%Z
          else None
      | _, _, _, _, _, _, _, _ => None
      end
  | _ => None
  end.

(** The comparator handed to [sort] in both loaders,
    [(a, b) => new Date(b.addedDate).getTime() - new Date(a.addedDate).getTime()];
    [None] is NaN. *)
Definition compareAdded (a b : UserEbook) : option Z :=
  match Date_getTime (addedDate b), Date_getTime (addedDate a) with
  | Some tb, Some ta => Some (tb - ta)%Z
  | _, _ => None
  end.

(** [SortCompare] of ECMA-262 23.1.3.30.2: a NaN result counts as [+0]. *)
Definition SortCompare (a b : UserEbook) : Z :=
  match compareAdded a b with
  | Some v => v
  | None => 0%Z
  end.

(** [Array.prototype.sort] with that comparator.  The sort is stable; an
    insertion sort that puts an element before the first one it does not
    have to follow is the stable sort. *)
Fixpoint sort_insert (x : UserEbook) (l : list UserEbook) : list UserEbook :=
  match l with
  | [] => [x]
  | y :: l' =>
      if (0 <? SortCompare x y)%Z then y :: sort_insert x l' else x :: l
  end.

Definition sort_by_added (l : list UserEbook) : list UserEbook :=
  fold_right sort_insert [] l.

(** [a] may stand before [b] in a list sorted by date, newest first. *)
Definition may_precede (a b : UserEbook) : bool := (SortCompare a b <=? 0)%Z.

Fixpoint sorted_desc (l : list UserEbook) : bool :=
  match l with
  | [] => true
  | a :: r => forallb (may_precede a) r && sorted_desc r
  end.

(** ** The service object and the stores behind it *)

(** Calls the service makes, in the order it makes them.  This is an
    observation kept beside the state, not something the code reads. *)
Inductive Call :=
| import_ (module : string)
| Preferences_get_ (key : string)
| Preferences_set_ (key : string)
| Filesystem_mkdir_ (path : string)
| Filesystem_writeFile_ (path : string)
| Filesystem_readFile_ (path : string)
| Filesystem_deleteFile_ (path : string)
| indexedDB_open_ (name : string)
| store_getAll_ (store : string)
| store_put_ (store key : string)
| store_get_ (store key : string)
| store_delete_ (store key : string)
| localStorage_getItem_ (key : string)
| localStorage_setItem_ (key : string)
| saveFile_ (bookId : string).     (* the router [_saveFile] was entered *)

(** The fields of [LibraryService] (with [true] for a handle that is set)
    followed by the durable stores of the host.  The [isLoading] signal,
    which no method reads, is left out.  A value kept as JSON text is
    represented by the array it is the text of. *)
Record Service := {
  books : list UserEbook;
  isNative : bool;
  Preferences : bool;
  Filesystem : bool;
  Directory : bool;
  db : bool;
  preferences : gmap string (list UserEbook);
  files_area : gmap string FsContent;
  books_store : gmap string UserEbook;
  files_store : gmap string IdbFile;
  localStorage : gmap string (list UserEbook);
  calls : list Call
}.

(** What the host decides during one call of the service: the clock, the
    random source, and which of the operations asked of it fail. *)
Record Host := {
  Date_now : N;                     (* Date.now() *)
  Math_random_36 : string;          (* Math.random().toString(36) *)
  Date_toISOString : string;        (* new Date().toISOString() *)
  fails : Call -> bool
}.

Definition set_books (f : list UserEbook -> list UserEbook) (s : Service) : Service :=
  {| books := f (books s); isNative := isNative s; Preferences := Preferences s;
     Filesystem := Filesystem s; Directory := Directory s; db := db s;
     preferences := preferences s; files_area := files_area s;
     books_store := books_store s; files_store := files_store s;
     localStorage := localStorage s; calls := calls s |}.

Definition set_Preferences (v : bool) (s : Service) : Service :=
  {| books := books s; isNative := isNative s; Preferences := v;
     Filesystem := Filesystem s; Directory := Directory s; db := db s;
     preferences := preferences s; files_area := files_area s;
     books_store := books_store s; files_store := files_store s;
     localStorage := localStorage s; calls := calls s |}.

Definition set_Filesystem (v : bool) (s : Service) : Service :=
  {| books := books s; isNative := isNative s; Preferences := Preferences s;
     Filesystem := v; Directory := v; db := db s;
     preferences := preferences s; files_area := files_area s;
     books_store := books_store s; files_store := files_store s;
     localStorage := localStorage s; calls := calls s |}.

Definition set_db (v : bool) (s : Service) : Service :=
  {| books := books s; isNative := isNative s; Preferences := Preferences s;
     Filesystem := Filesystem s; Directory := Directory s; db := v;
     preferences := preferences s; files_area := files_area s;
     books_store := books_store s; files_store := files_store s;
     localStorage := localStorage s; calls := calls s |}.

Definition set_preferences
  (f : gmap string (list UserEbook) -> gmap string (list UserEbook)) (s : Service)
  : Service :=
  {| books := books s; isNative := isNative s; Preferences := Preferences s;
     Filesystem := Filesystem s; Directory := Directory s; db := db s;
     preferences := f (preferences s); files_area := files_area s;
     books_store := books_store s; files_store := files_store s;
     localStorage := localStorage s; calls := calls s |}.

Definition set_files_area
  (f : gmap string FsContent -> gmap string FsContent) (s : Service) : Service :=
  {| books := books s; isNative := isNative s; Preferences := Preferences s;
     Filesystem := Filesystem s; Directory := Directory s; db := db s;
     preferences := preferences s; files_area := f (files_area s);
     books_store := books_store s; files_store := files_store s;
     localStorage := localStorage s; calls := calls s |}.

Definition set_books_store
  (f : gmap string UserEbook -> gmap string UserEbook) (s : Service) : Service :=
  {| books := books s; isNative := isNative s; Preferences := Preferences s;
     Filesystem := Filesystem s; Directory := Directory s; db := db s;
     preferences := preferences s; files_area := files_area s;
     books_store := f (books_store s); files_store := files_store s;
     localStorage := localStorage s; calls := calls s |}.

Definition set_files_store
  (f : gmap string IdbFile -> gmap string IdbFile) (s : Service) : Service :=
  {| books := books s; isNative := isNative s; Preferences := Preferences s;
     Filesystem := Filesystem s; Directory := Directory s; db := db s;
     preferences := preferences s; files_area := files_area s;
     books_store := books_store s; files_store := f (files_store s);
     localStorage := localStorage s; calls := calls s |}.

Definition set_localStorage
  (f : gmap string (list UserEbook) -> gmap string (list UserEbook)) (s : Service)
  : Service :=
  {| books := books s; isNative := isNative s; Preferences := Preferences s;
     Filesystem := Filesystem s; Directory := Directory s; db := db s;
     preferences := preferences s; files_area := files_area s;
     books_store := books_store s; files_store := files_store s;
     localStorage := f (localStorage s); calls := calls s |}.

Definition set_calls (f : list Call -> list Call) (s : Service) : Service :=
  {| books := books s; isNative := isNative s; Preferences := Preferences s;
     Filesystem := Filesystem s; Directory := Directory s; db := db s;
     preferences := preferences s; files_area := files_area s;
     books_store := books_store s; files_store := files_store s;
     localStorage := localStorage s; calls := f (calls s) |}.

(** ** Asynchronous methods: state passing with exceptions

    An [async] method is a function from the state before the call to the
    state after it together with the value its promise resolves with, or the
    reason it rejects with.  Calls are awaited one after the other, and a
    rejection keeps what was written before it. *)

Definition M (A : Type) : Type := Service -> result A * Service.

Definition ret {A} (a : A) : M A := fun s => (Ok a, s).

Definition throw {A} (e : Exn) : M A := fun s => (Throw e, s).

Definition bind {A B} (m : M A) (k : A -> M B) : M B :=
  fun s =>
    match m s with
    | (Ok a, s') => k a s'
    | (Throw e, s') => (Throw e, s')
    end.

(** [try { m } catch (e) { handler }]. *)
Definition try_catch {A} (m : M A) (handler : M A) : M A :=
  fun s =>
    match m s with
    | (Ok a, s') => (Ok a, s')
    | (Throw _, s') => handler s'
    end.

Definition read {A} (f : Service -> A) : M A := fun s => (Ok (f s), s).

Definition write (f : Service -> Service) : M unit := fun s => (Ok tt, f s).

Declare Scope async_scope.
Delimit Scope async_scope with async.
Notation "x <- m ;; k" := (bind m (fun x => k))
  (at level 100, m at next level, right associativity) : async_scope.
Notation "m ;; k" := (bind m (fun _ => k))
  (at level 100, right associativity) : async_scope.
Open Scope async_scope.

Definition called (c : Call) : M unit := write (set_calls (fun l => l ++ [c])).

(** A host operation: it is recorded, then fails if the host says so. *)
Definition host_call {A} (h : Host) (c : Call) (e : Exn) (body : M A) : M A :=
  called c ;; if fails h c then throw e else body.

(** *** Host operations *)

Definition Preferences_get (h : Host) (key : string) : M (option (list UserEbook)) :=
  host_call h (Preferences_get_ key) PluginError
    (read (fun s => preferences s !! key)).

Definition Preferences_set (h : Host) (key : string) (value : list UserEbook) : M unit :=
  host_call h (Preferences_set_ key) PluginError
    (write (set_preferences <[key := value]>)).

Definition Filesystem_mkdir (h : Host) (path : string) : M unit :=
  host_call h (Filesystem_mkdir_ path) PluginError (ret tt).

Definition Filesystem_writeFile (h : Host) (path : string) (data : jsstring) : M unit :=
  host_call h (Filesystem_writeFile_ path) PluginError
    (write (set_files_area <[path := FsText data]>)).

(** Reading a file that does not exist rejects. *)
Definition Filesystem_readFile (h : Host) (path : string) : M FsContent :=
  host_call h (Filesystem_readFile_ path) PluginError
    (found <- read (fun s => files_area s !! path) ;;
     match found with
     | Some content => ret content
     | None => throw PluginError
     end).

Definition Filesystem_deleteFile (h : Host) (path : string) : M unit :=
  host_call h (Filesystem_deleteFile_ path) PluginError
    (found <- read (fun s => files_area s !! path) ;;
     match found with
     | Some _ => write (set_files_area (delete path))
     | None => throw PluginError
     end).

Definition localStorage_getItem (h : Host) (key : string) : M (option (list UserEbook)) :=
  host_call h (localStorage_getItem_ key) StorageError
    (read (fun s => localStorage s !! key)).

Definition localStorage_setItem (h : Host) (key : string) (value : list UserEbook) : M unit :=
  host_call h (localStorage_setItem_ key) StorageError
    (write (set_localStorage <[key := value]>)).

(** [getAll] lists a store by ascending key. *)
Definition key_le (a b : string * UserEbook) : Prop := String.leb a.1 b.1 = true.

#[local] Instance key_le_dec : RelDecision key_le :=
  fun a b => decide (String.leb a.1 b.1 = true).

Definition books_getAll (h : Host) : M (list UserEbook) :=
  host_call h (store_getAll_ BOOKS_STORE) RequestError
    (read (fun s => (merge_sort key_le (map_to_list (books_store s))).*2)).

Definition books_put (h : Host) (book : UserEbook) : M unit :=
  host_call h (store_put_ BOOKS_STORE (id book)) RequestError
    (write (set_books_store <[id book := book]>)).

Definition books_delete (h : Host) (key : string) : M unit :=
  host_call h (store_delete_ BOOKS_STORE key) RequestError
    (write (set_books_store (delete key))).

Definition files_put (h : Host) (entry : IdbFile) : M unit :=
  host_call h (store_put_ FILES_STORE (raw_id entry)) RequestError
    (write (set_files_store <[raw_id entry := entry]>)).

Definition files_get (h : Host) (key : string) : M (option IdbFile) :=
  host_call h (store_get_ FILES_STORE key) RequestError
    (read (fun s => files_store s !! key)).

Definition files_delete (h : Host) (key : string) : M unit :=
  host_call h (store_delete_ FILES_STORE key) RequestError
    (write (set_files_store (delete key))).

(** ** Native tier: Capacitor Preferences and Filesystem *)

Definition same_id (key : string) (b : UserEbook) : bool := String.eqb (id b) key.

(** [list.findIndex(p) >= 0]. *)
Definition found_index (p : UserEbook -> bool) (l : list UserEbook) : bool := existsb p l.

Fixpoint findIndex (p : UserEbook -> bool) (l : list UserEbook) : option nat :=
  match l with
  | [] => None
  | b :: r => if p b then Some O else option_map S (findIndex p r)
  end.

Definition _ensureEbooksDir (h : Host) : M unit :=
  fs <- read Filesystem ;;
  dir <- read Directory ;;
  if negb fs || negb dir then ret tt
  else try_catch (Filesystem_mkdir h FILES_DIR) (ret tt).

Definition _nativeFilePath (bookId : string) : string :=
  (FILES_DIR +:+ "/" +:+ bookId +:+ ".bin")%string.

Definition _localStorageLoadBooks (h : Host) : M (list UserEbook) :=
  try_catch
    (raw <- localStorage_getItem h META_KEY ;;
     match raw with
     | Some parsed => ret parsed
     | None => ret []
     end)
    (ret []).

Definition _localStorageSaveBooks (h : Host) (l : list UserEbook) : M unit :=
  try_catch (localStorage_setItem h META_KEY l) (ret tt).

Definition _localStorageSaveBook (h : Host) (book : UserEbook) : M unit :=
  list <- read books ;;
  _localStorageSaveBooks h
    match findIndex (same_id (id book)) list with
    | Some idx => <[idx := book]> list
    | None => book :: list
    end.

Definition _loadFromLocalStorage (h : Host) : M unit :=
  l <- _localStorageLoadBooks h ;;
  write (set_books (fun _ => l)).

Definition _nativeLoadBooks (h : Host) : M (list UserEbook) :=
  prefs <- read Preferences ;;
  if negb prefs then _localStorageLoadBooks h
  else
    try_catch
      (value <- Preferences_get h PREFS_BOOKS_KEY ;;
       match value with
       | None => ret []
       | Some parsed => ret (sort_by_added parsed)
       end)
      (ret []).

Definition _nativeSaveBooks (h : Host) (l : list UserEbook) : M unit :=
  prefs <- read Preferences ;;
  if negb prefs then _localStorageSaveBooks h l
  else try_catch (Preferences_set h PREFS_BOOKS_KEY l) (_localStorageSaveBooks h l).

(** The elements of [new Uint8Array(data)]. *)
Definition Uint8Array_of (d : FileData) : list byte :=
  match d with
  | ArrayBuffer bytes => bytes
  | NotABuffer view => view
  end.

Definition lift {A} (r : result A) : M A := fun s => (r, s).

Definition _nativeSaveFile (h : Host) (file : StoredFileData) : M unit :=
  fs <- read Filesystem ;;
  dir <- read Directory ;;
  if negb fs || negb dir then ret tt     (* console.warn, file not saved *)
  else
    base64 <- lift (_arrayBufferToBase64 (Uint8Array_of (file_data file))) ;;
    Filesystem_writeFile h (_nativeFilePath (file_id file)) base64.

(** [x || 'application/pdf'] on an optional string: undefined and the empty
    string are both falsy. *)
Definition or_default_mime (x : option string) : string :=
  match x with
  | Some EmptyString => DEFAULT_MIME
  | Some m => m
  | None => DEFAULT_MIME
  end.

Definition _nativeGetFile (h : Host) (bookId : string) : M (option StoredFileData) :=
  fs <- read Filesystem ;;
  dir <- read Directory ;;
  if negb fs || negb dir then ret None
  else
    try_catch
      (book <- read (fun s => List.find (same_id bookId) (books s)) ;;
       let mimeType := or_default_mime (b ← book; fileMimeType b) in
       content <- Filesystem_readFile h (_nativeFilePath bookId) ;;
       data <- match content with
               | FsText text => lift (_base64ToArrayBuffer text)
               | FsBytes bytes => ret bytes
               end ;;
       ret (Some {| file_id := bookId; file_data := ArrayBuffer data;
                    file_mimeType := mimeType |}))
      (ret None).

Definition _nativeDeleteFile (h : Host) (bookId : string) : M unit :=
  fs <- read Filesystem ;;
  dir <- read Directory ;;
  if negb fs || negb dir then ret tt
  else try_catch (Filesystem_deleteFile h (_nativeFilePath bookId)) (ret tt).

(** ** Web tier: IndexedDB *)

Definition _openDB (h : Host) : M unit :=
  host_call h (indexedDB_open_ DB_NAME) RequestError (ret tt).

Definition _getAllBooks (h : Host) : M (list UserEbook) :=
  open <- read db ;;
  if negb open then ret []
  else all <- books_getAll h ;; ret (sort_by_added all).

Definition _idbSaveBook (h : Host) (book : UserEbook) : M unit :=
  open <- read db ;;
  if negb open then _localStorageSaveBook h book
  else books_put h book.

Definition _idbDeleteBook (h : Host) (key : string) : M unit :=
  open <- read db ;;
  if negb open then ret tt
  else books_delete h key.

(** [Array.from(new Uint8Array(data))]: the bytes as numbers. *)
Definition Array_from (bytes : list byte) : list Z :=
  List.map (fun b => Z.of_N (Byte.to_N b)) bytes.

Definition _idbSaveFile (h : Host) (file : StoredFileData) : M unit :=
  open <- read db ;;
  if negb open then ret tt
  else
    let safe := {| raw_id := file_id file;
                   raw_data := IdbArray (Array_from (Uint8Array_of (file_data file)));
                   raw_mimeType := file_mimeType file |} in
    files_put h safe.

(** [new Uint8Array(numbers)]: each number modulo 256. *)
Definition Uint8Array_from (elems : list Z) : list byte :=
  List.map (fun z => ToUint8 (Z.to_N (z mod 256))) elems.

Definition _idbGetFile (h : Host) (key : string) : M (option StoredFileData) :=
  open <- read db ;;
  if negb open then ret None
  else
    found <- files_get h key ;;
    match found with
    | None => ret None
    | Some raw =>
        let data :=
          match raw_data raw with
          | IdbArrayBuffer bytes => ArrayBuffer bytes
          | IdbArray elems => ArrayBuffer (Uint8Array_from elems)
          | IdbOther view => NotABuffer view
          end in
        ret (Some {| file_id := raw_id raw; file_data := data;
                     file_mimeType := raw_mimeType raw |})
    end.

Definition _idbDeleteFile (h : Host) (key : string) : M unit :=
  open <- read db ;;
  if negb open then ret tt
  else files_delete h key.

(** ** Routing between the tiers *)

Definition _saveBook (h : Host) (book : UserEbook) : M unit :=
  native <- read isNative ;;
  if native then
    current <- read books ;;
    let updated :=
      if found_index (same_id (id book)) current
      then List.map (fun b => if same_id (id book) b then book else b) current
      else book :: current in
    _nativeSaveBooks h updated
  else _idbSaveBook h book.

Definition _deleteBook (h : Host) (key : string) : M unit :=
  native <- read isNative ;;
  if native then
    current <- read books ;;
    _nativeSaveBooks h (List.filter (fun b => negb (same_id key b)) current)
  else _idbDeleteBook h key.

Definition _saveFile (h : Host) (file : StoredFileData) : M unit :=
  called (saveFile_ (file_id file)) ;;
  native <- read isNative ;;
  if native then _nativeSaveFile h file else _idbSaveFile h file.

Definition _getFile (h : Host) (key : string) : M (option StoredFileData) :=
  native <- read isNative ;;
  if native then _nativeGetFile h key else _idbGetFile h key.

Definition _deleteFile (h : Host) (key : string) : M unit :=
  native <- read isNative ;;
  if native then _nativeDeleteFile h key else _idbDeleteFile h key.

(** ** The public methods *)

(** The part of a string before its first [T]: [s.split('T')[0]]. *)
Fixpoint before_T (s : string) : string :=
  match s with
  | EmptyString => EmptyString
  | String c r => if Ascii.eqb c "T" then EmptyString else String c (before_T r)
  end.

Definition decimal (n : N) : string := DecimalString.NilZero.string_of_uint (N.to_uint n).

Definition new_id (h : Host) : string :=
  ("book-" +:+ decimal (Date_now h) +:+ "-" +:+ substring 2 5 (Math_random_36 h))%string.

Definition new_book (h : Host) (meta : BookMeta) : UserEbook :=
  {| id := new_id h;
     title := m_title meta;
     author := m_author meta;
     description := m_description meta;
     level := m_level meta;
     category := m_category meta;
     coverEmoji := m_coverEmoji meta;
     coverColor := m_coverColor meta;
     fileType := m_fileType meta;
     sourceUrl := m_sourceUrl meta;
     fileName := m_fileName meta;
     fileSize := m_fileSize meta;
     fileMimeType := m_fileMimeType meta;
     totalPages := m_totalPages meta;
     language := m_language meta;
     addedDate := before_T (Date_toISOString h);
     notes := m_notes meta |}.

Definition addBook (h : Host) (meta : BookMeta) (fileData : option (list byte))
  : M UserEbook :=
  let book := new_book h meta in
  _saveBook h book ;;
  match fileData with
  | Some bytes =>
      if negb (FileType_eqb (fileType book) URL)
      then _saveFile h {| file_id := id book; file_data := ArrayBuffer bytes;
                          file_mimeType := or_default_mime (fileMimeType book) |}
      else ret tt
  | None => ret tt
  end ;;
  write (set_books (fun list => book :: list)) ;;
  ret book.

Definition deleteBook (h : Host) (key : string) : M unit :=
  _deleteBook h key ;;
  _deleteFile h key ;;
  write (set_books (List.filter (fun b => negb (same_id key b)))).

Definition updateBook (h : Host) (key : string) (updates : BookUpdates) : M unit :=
  updated <- read (fun s => List.find (same_id key) (books s)) ;;
  match updated with
  | None => ret tt
  | Some updated =>
      let newBook := merge updated updates in
      _saveBook h newBook ;;
      write (set_books (List.map (fun b => if same_id key b then newBook else b)))
  end.

(** The type a [Blob] keeps of the one it is given: lower-cased, or empty
    when a character lies outside U+0020..U+007E. *)
Definition lower (c : ascii) : ascii :=
  let n := N_of_ascii c in
  if (65 <=? n) && (n <=? 90) then ascii_of_N (n + 32) else c.

Definition Blob_type (t : string) : string :=
  let cs := list_ascii_of_string t in
  if forallb (fun c => (32 <=? N_of_ascii c) && (N_of_ascii c <=? 126)) cs
  then string_of_list_ascii (List.map lower cs)
  else EmptyString.

(** [FileReader.readAsDataURL] of [new Blob([buffer], { type: mimeType })]. *)
Definition _arrayBufferToDataUrl (buffer : FileData) (mimeType : string) : jsstring :=
  let bytes := String_fromCharCode (Uint8Array_of buffer) in
  let t := match Blob_type mimeType with
           | EmptyString => "application/octet-stream"
           | t => t
           end in
  js ("data:" +:+ t +:+ ";base64,")%string
    ++ List.map b64_char (b64_groups bytes) ++ b64_padding (length bytes).

Definition getFileDataUrl (h : Host) (bookId : string) : M (option jsstring) :=
  try_catch
    (stored <- _getFile h bookId ;;
     match stored with
     | None => ret None
     | Some stored =>
         ret (Some (_arrayBufferToDataUrl (file_data stored) (file_mimeType stored)))
     end)
    (ret None).

Definition init (h : Host) : M unit :=
  try_catch
    (native <- read isNative ;;
     if native then
       try_catch
         (host_call h (import_ "@capacitor/preferences") PluginError
            (write (set_Preferences true)))
         (ret tt) ;;
       try_catch
         (host_call h (import_ "@capacitor/filesystem") PluginError
            (write (set_Filesystem true)) ;;
          _ensureEbooksDir h)
         (ret tt) ;;
       all <- _nativeLoadBooks h ;;
       write (set_books (fun _ => all))
     else
       _openDB h ;;
       write (set_db true) ;;
       all <- _getAllBooks h ;;
       write (set_books (fun _ => all)))
    (_loadFromLocalStorage h).

(** ** Sequences of mutations *)

Inductive Op :=
| Add (meta : BookMeta) (fileData : option (list byte))
| Update (key : string) (updates : BookUpdates)
| Delete (key : string).

(** One awaited call; whether it resolved or rejected, the service goes on
    from the state it left. *)
Definition step (s : Service) (c : Host * Op) : Service :=
  match c with
  | (h, Add meta fileData) => snd (addBook h meta fileData s)
  | (h, Update key updates) => snd (updateBook h key updates s)
  | (h, Delete key) => snd (deleteBook h key s)
  end.

Definition run (s : Service) (cs : list (Host * Op)) : Service := fold_left step cs s.

(** ** Hosts, states and records used in the examples *)

Definition no_failure : Call -> bool := fun _ => false.

Definition host_on (iso : string) (now : N) (rnd : string) (f : Call -> bool) : Host :=
  {| Date_now := now; Math_random_36 := rnd; Date_toISOString := iso; fails := f |}.

(** A host on 14 November 2023 on which nothing fails. *)
Definition quiet : Host :=
  host_on "2023-11-14T22:13:20.000Z" 1700000000000 "0.4fzyo82mvyr" no_failure.

Definition empty_service (native ready : bool) : Service :=
  {| books := []; isNative := native;
     Preferences := native && ready; Filesystem := native && ready;
     Directory := native && ready; db := negb native && ready;
     preferences := ∅; files_area := ∅; books_store := ∅; files_store := ∅;
     localStorage := ∅; calls := [] |}.

(** A browser with its database open, and a native host with both plugins. *)
Definition web_ready : Service := empty_service false true.
Definition native_ready : Service := empty_service true true.

Definition pdf_meta : BookMeta :=
  {| m_title := "T"; m_author := "A"; m_description := "d"; m_level := N5;
     m_category := "grammar"; m_coverEmoji := "*"; m_coverColor := "#fff";
     m_fileType := PDF; m_sourceUrl := None; m_fileName := None;
     m_fileSize := None; m_fileMimeType := None; m_totalPages := None;
     m_language := JA; m_notes := None |}.

Definition url_meta : BookMeta :=
  {| m_title := "T"; m_author := "A"; m_description := "d"; m_level := N5;
     m_category := "grammar"; m_coverEmoji := "*"; m_coverColor := "#fff";
     m_fileType := URL; m_sourceUrl := Some "https://x"; m_fileName := None;
     m_fileSize := None; m_fileMimeType := None; m_totalPages := None;
     m_language := JA; m_notes := None |}.

Definition pdf_bytes : list byte := ["%"; "P"; "D"; "F"]%byte.

Definition book_of (key date : string) (mime : option string) : UserEbook :=
  {| id := key; title := "T"; author := "A"; description := "d"; level := N5;
     category := "grammar"; coverEmoji := "*"; coverColor := "#fff";
     fileType := PDF; sourceUrl := None; fileName := None; fileSize := None;
     fileMimeType := mime; totalPages := None; language := JA;
     addedDate := date; notes := None |}.

Definition no_updates : BookUpdates :=
  {| u_id := None; u_title := None; u_author := None; u_description := None;
     u_level := None; u_category := None; u_coverEmoji := None;
     u_coverColor := None; u_fileType := None; u_sourceUrl := None;
     u_fileName := None; u_fileSize := None; u_fileMimeType := None;
     u_totalPages := None; u_language := None; u_addedDate := None;
     u_notes := None |}.

Definition redate (date : string) : BookUpdates :=
  {| u_id := None; u_title := None; u_author := None; u_description := None;
     u_level := None; u_category := None; u_coverEmoji := None;
     u_coverColor := None; u_fileType := None; u_sourceUrl := None;
     u_fileName := None; u_fileSize := None; u_fileMimeType := None;
     u_totalPages := None; u_language := None; u_addedDate := Some date;
     u_notes := None |}.

Definition retitle (t : string) : BookUpdates :=
  {| u_id := None; u_title := Some t; u_author := None; u_description := None;
     u_level := None; u_category := None; u_coverEmoji := None;
     u_coverColor := None; u_fileType := None; u_sourceUrl := None;
     u_fileName := None; u_fileSize := None; u_fileMimeType := None;
     u_totalPages := None; u_language := None; u_addedDate := None;
     u_notes := None |}.

Definition with_books (l : list UserEbook) (s : Service) : Service :=
  set_books (fun _ => l) s.

(** A record whose MIME type is the empty string, as a file picker reports
    for a file of unknown type. *)
Definition untyped_meta : BookMeta :=
  {| m_title := "T"; m_author := "A"; m_description := "d"; m_level := N5;
     m_category := "grammar"; m_coverEmoji := "*"; m_coverColor := "#fff";
     m_fileType := LAINNYA; m_sourceUrl := None; m_fileName := Some "notes.xyz";
     m_fileSize := Some 4; m_fileMimeType := Some ""; m_totalPages := None;
     m_language := JA; m_notes := None |}.

Definition with_files_store (m : gmap string IdbFile) (s : Service) : Service :=
  set_files_store (fun _ => m) s.

Definition reidentify (key : string) : BookUpdates :=
  {| u_id := Some key; u_title := None; u_author := None; u_description := None;
     u_level := None; u_category := None; u_coverEmoji := None;
     u_coverColor := None; u_fileType := None; u_sourceUrl := None;
     u_fileName := None; u_fileSize := None; u_fileMimeType := None;
     u_totalPages := None; u_language := None; u_addedDate := None;
     u_notes := None |}.

(** A host on which exactly the calls picked by [f] fail. *)
Definition failing (f : Call -> bool) : Host :=
  host_on "2023-11-14T22:13:20.000Z" 1700000000000 "0.4fzyo82mvyr" f.

Definition is_books_put (c : Call) : bool :=
  match c with
  | store_put_ store _ => String.eqb store BOOKS_STORE
  | _ => false
  end.

Definition is_files_put (c : Call) : bool :=
  match c with
  | store_put_ store _ => String.eqb store FILES_STORE
  | _ => false
  end.

Definition is_books_delete (c : Call) : bool :=
  match c with
  | store_delete_ store _ => String.eqb store BOOKS_STORE
  | _ => false
  end.

Definition is_writeFile (c : Call) : bool :=
  match c with
  | Filesystem_writeFile_ _ => true
  | _ => false
  end.

Definition is_Preferences_get (c : Call) : bool :=
  match c with
  | Preferences_get_ _ => true
  | _ => false
  end.

(** The payload argument [addBook] builds for [_saveFile]. *)
Definition payload_of (book : UserEbook) (bytes : list byte) : StoredFileData :=
  {| file_id := id book; file_data := ArrayBuffer bytes;
     file_mimeType := or_default_mime (fileMimeType book) |}.

(** The replacement [updateBook] maps over the cache, and the filter
    [deleteBook] applies to it. *)
Definition replace_id (key : string) (newBook : UserEbook) (b : UserEbook) : UserEbook :=
  if same_id key b then newBook else b.

Definition other_id (key : string) (b : UserEbook) : bool := negb (same_id key b).

Definition with_preferences (l : list UserEbook) (s : Service) : Service :=
  set_preferences <[PREFS_BOOKS_KEY := l]> s.

(** A native host before [init], whose Preferences already hold one record. *)
Definition native_installed : Service :=
  with_preferences [book_of "b1" "2024-01-02" None] (empty_service true false).

(** Calls that write a payload: entering [_saveFile], writing a file of the
    payload directory, putting an entry into the files store. *)
Definition is_payload_write (c : Call) : bool :=
  match c with
  | saveFile_ _ => true
  | Filesystem_writeFile_ _ => true
  | store_put_ store _ => String.eqb store FILES_STORE
  | _ => false
  end.

(** The calls made between two states of one execution. *)
Definition during (before after : Service) : list Call :=
  skipn (length (calls before)) (calls after).

(** [m] adds to the record of calls only calls satisfying [P]. *)
Definition emits {A} (P : Call -> Prop) (m : M A) : Prop :=
  forall s, exists evs, calls (snd (m s)) = calls s ++ evs /\ Forall P evs.

(** A call that cannot break the order of the cache: an add that draws an id
    no cached record has, at a date no earlier than any cached record's; an
    update whose partial fields have neither [id] nor [addedDate]; any
    delete. *)
Definition absent {A} (x : option A) : bool :=
  match x with
  | Some _ => false
  | None => true
  end.

Definition order_safe (s : Service) (c : Host * Op) : bool :=
  match c with
  | (h, Add meta _) =>
      negb (existsb (same_id (new_id h)) (books s))
      && forallb (may_precede (new_book h meta)) (books s)
  | (_, Update _ updates) => absent (u_id updates) && absent (u_addedDate updates)
  | (_, Delete _) => true
  end.

Fixpoint all_order_safe (s : Service) (cs : list (Host * Op)) : bool :=
  match cs with
  | [] => true
  | c :: r => order_safe s c && all_order_safe (step s c) r
  end.

(** The cache after a call keeps the records of the cache before it in the
    order they were in: it is the same list, or the list with the new record
    in front, or with the records of one id replaced in place, or with them
    filtered out. *)
Definition order_kept (c : Host * Op) (old new : list UserEbook) : Prop :=
  new = old \/
  match c with
  | (h, Add meta _) => new = new_book h meta :: old
  | (_, Update key _) => exists newBook, new = List.map (replace_id key newBook) old
  | (_, Delete key) => new = List.filter (other_id key) old
  end.

Definition two_books : Service :=
  with_books [book_of "b1" "2024-01-03" None; book_of "b2" "2024-01-02" None]
    web_ready.

(** A sorted cache in which two records share an id. *)
Definition shared_id_books : Service :=
  with_books [book_of "b1" "2024-01-03" None; book_of "b2" "2024-01-02" None;
              book_of "b1" "2024-01-01" None]
    web_ready.

(** ** Notions used in the statements *)

(** [m] leaves the observation [f] of the state as it found it, whether it
    resolves or rejects. *)
Definition keeps {A B} (f : Service -> B) (m : M A) : Prop :=
  forall s, f (snd (m s)) = f s.

(** The 6-bit values. *)
Definition sextets : list N := List.map N.of_nat (seq 0 64).

(** ** The object URL of a payload *)

(** [getFileUrl]: on a native host the data URL, in a browser the URL the
    host makes for a [Blob] of the payload.  [createObjectURL] stands for
    [URL.createObjectURL] applied to [new Blob([data], { type })]; it is
    given the bytes and the type the [Blob] keeps. *)
Definition getFileUrl (createObjectURL : list byte -> string -> jsstring)
  (h : Host) (bookId : string) : M (option jsstring) :=
  try_catch
    (stored <- _getFile h bookId ;;
     match stored with
     | None => ret None
     | Some stored =>
         native <- read isNative ;;
         if native
         then ret (Some (_arrayBufferToDataUrl (file_data stored)
                           (file_mimeType stored)))
         else ret (Some (createObjectURL (Uint8Array_of (file_data stored))
                           (Blob_type (file_mimeType stored))))
     end)
    (ret None).

(** The text [_arrayBufferToBase64] gives for a buffer. *)
Definition base64_of (buffer : list byte) : jsstring :=
  List.map b64_char (b64_groups (String_fromCharCode buffer))
    ++ b64_padding (length buffer).

(** A code unit of the radix-64 alphabet or the padding sign. *)
Definition is_b64_unit (c : N) : bool :=
  match b64_index c with
  | Some _ => true
  | None => c =? EQUALS
  end.

(** [m] resolves from every state: it never rejects. *)
Definition resolves {A} (m : M A) : Prop :=
  forall s, exists a, fst (m s) = Ok a.

(** The stored list under a key, or the empty list. *)
Definition stored_list (m : gmap string (list UserEbook)) (key : string)
  : list UserEbook :=
  match m !! key with
  | Some l => l
  | None => []
  end.

(** A record whose date has the form [addBook] writes. *)
Definition dated (b : UserEbook) : Prop := is_Some (Date_getTime (addedDate b)).

Definition is_open (c : Call) : bool :=
  match c with
  | indexedDB_open_ _ => true
  | _ => false
  end.


Definition with_localStorage (l : list UserEbook) (s : Service) : Service :=
  set_localStorage <[META_KEY := l]> s.

Definition with_books_store (m : gmap string UserEbook) (s : Service) : Service :=
  set_books_store (fun _ => m) s.

(** A browser before [init], whose records store holds two records and
    whose localStorage holds one. *)
Definition web_installed : Service :=
  with_books_store
    {[ "b1" := book_of "b1" "2024-01-02" None;
       "b2" := book_of "b2" "2024-01-03" None ]}
    (with_localStorage [book_of "b0" "2023-12-31" None] (empty_service false false)).

Definition is_Preferences_set (c : Call) : bool :=
  match c with
  | Preferences_set_ _ => true
  | _ => false
  end.

Definition is_deleteFile (c : Call) : bool :=
  match c with
  | Filesystem_deleteFile_ _ => true
  | _ => false
  end.

Definition is_setItem (c : Call) : bool :=
  match c with
  | localStorage_setItem_ _ => true
  | _ => false
  end.

(** A native host with one cached and stored record and its payload file. *)
Definition native_with_payload : Service :=
  snd (addBook quiet pdf_meta (Some pdf_bytes) native_ready).

(** A browser with one cached and stored record and its payload. *)
Definition web_with_payload : Service :=
  snd (addBook quiet pdf_meta (Some pdf_bytes) web_ready).

(** A browser whose database could not be opened. *)
Definition web_without_db : Service := empty_service false false.

Definition is_files_delete (c : Call) : bool :=
  match c with
  | store_delete_ store _ => String.eqb store FILES_STORE
  | _ => false
  end.

(** A stand-in for [URL.createObjectURL]. *)
Definition blob_url (bytes : list byte) (type : string) : jsstring :=
  js "blob:javsensei/0".

(** Calls to the Capacitor plugins, and calls to IndexedDB. *)
Definition is_plugin_call (c : Call) : bool :=
  match c with
  | import_ _ | Preferences_get_ _ | Preferences_set_ _ | Filesystem_mkdir_ _
  | Filesystem_writeFile_ _ | Filesystem_readFile_ _ | Filesystem_deleteFile_ _ =>
      true
  | _ => false
  end.

Definition is_database_call (c : Call) : bool :=
  match c with
  | indexedDB_open_ _ | store_getAll_ _ | store_put_ _ _ | store_get_ _ _
  | store_delete_ _ _ => true
  | _ => false
  end.

(** The calls [m] makes from [s] all satisfy [P]. *)
Definition makes_only {A} (P : Call -> bool) (m : M A) (s : Service) : Prop :=
  exists evs, calls (snd (m s)) = calls s ++ evs /\ forallb P evs = true.

Definition not_plugin (c : Call) : bool := negb (is_plugin_call c).
Definition not_database (c : Call) : bool := negb (is_database_call c).

(** The calls a tier is allowed: none to the plugins in a browser, none to
    IndexedDB on a native host. *)
Definition of_tier (native : bool) : Call -> bool :=
  if native then not_database else not_plugin.

Definition is_readFile (c : Call) : bool :=
  match c with
  | Filesystem_readFile_ _ => true
  | _ => false
  end.

Definition with_file (path : string) (content : FsContent) (s : Service) : Service :=
  set_files_area <[path := content]> s.

(** * Proofs *)

(** ** Reasoning about asynchronous methods *)

Section Keeps.
Context {B : Type} (f : Service -> B).

Lemma keeps_ret {A} (a : A) : keeps f (ret a).
Proof. intros s. reflexivity. Qed.

Lemma keeps_throw {A} e : keeps f (@throw A e).
Proof. intros s. reflexivity. Qed.

Lemma keeps_lift {A} (r : result A) : keeps f (lift r).
Proof. intros s. reflexivity. Qed.

Lemma keeps_read {A} (g : Service -> A) : keeps f (read g).
Proof. intros s. reflexivity. Qed.

Lemma keeps_write g : (forall s, f (g s) = f s) -> keeps f (write g).
Proof. intros H s. apply H. Qed.

Lemma keeps_bind {A C} (m : M A) (k : A -> M C) :
  keeps f m -> (forall a, keeps f (k a)) -> keeps f (bind m k).
Proof.
  intros Hm Hk s. unfold bind. specialize (Hm s).
  destruct (m s) as [[a|e] s']; simpl in *; [|assumption].
  now rewrite Hk.
Qed.

Lemma keeps_try_catch {A} (m handler : M A) :
  keeps f m -> keeps f handler -> keeps f (try_catch m handler).
Proof.
  intros Hm Hh s. unfold try_catch. specialize (Hm s).
  destruct (m s) as [[a|e] s']; simpl in *; [assumption|].
  now rewrite Hh.
Qed.

Lemma keeps_if {A} (c : bool) (m1 m2 : M A) :
  keeps f m1 -> keeps f m2 -> keeps f (if c then m1 else m2).
Proof. now destruct c. Qed.

Lemma keeps_host_call {A} h c e (body : M A) :
  (forall s l, f (set_calls l s) = f s) -> keeps f body ->
  keeps f (host_call h c e body).
Proof.
  intros Hc Hb. unfold host_call, called.
  apply keeps_bind; [apply keeps_write; intros; apply Hc|].
  intros _. apply keeps_if; [apply keeps_throw | assumption].
Qed.
End Keeps.

(** Decomposes a goal [keeps f m] along the structure of [m]. *)
Ltac keeps_step :=
  lazymatch goal with
  | |- keeps _ (bind _ _) => apply keeps_bind; [|intros ?]
  | |- keeps _ (try_catch _ _) => apply keeps_try_catch
  | |- keeps _ (host_call _ _ _ _) => apply keeps_host_call; [reflexivity|]
  | |- keeps _ (ret _) => apply keeps_ret
  | |- keeps _ (throw _) => apply keeps_throw
  | |- keeps _ (lift _) => apply keeps_lift
  | |- keeps _ (read _) => apply keeps_read
  | |- keeps _ (called _) => apply keeps_write; reflexivity
  | |- keeps _ (write _) => apply keeps_write; reflexivity
  | |- keeps _ (if ?c then _ else _) => destruct c
  | |- keeps _ (match ?x with _ => _ end) => destruct x
  end.

Ltac keeps_auto := repeat keeps_step.

(** Everything below the three mutators leaves the signal alone. *)
Lemma _saveBook_keeps_books h book : keeps books (_saveBook h book).
Proof.
  unfold _saveBook, _nativeSaveBooks, _idbSaveBook, _localStorageSaveBook,
    _localStorageSaveBooks, Preferences_set, localStorage_setItem, books_put.
  keeps_auto.
Qed.

Lemma _saveFile_keeps_books h file : keeps books (_saveFile h file).
Proof.
  unfold _saveFile, _nativeSaveFile, _idbSaveFile, Filesystem_writeFile, files_put.
  keeps_auto.
Qed.

Lemma _deleteBook_keeps_books h key : keeps books (_deleteBook h key).
Proof.
  unfold _deleteBook, _nativeSaveBooks, _idbDeleteBook, _localStorageSaveBooks,
    Preferences_set, localStorage_setItem, books_delete.
  keeps_auto.
Qed.

Lemma _deleteFile_keeps_books h key : keeps books (_deleteFile h key).
Proof.
  unfold _deleteFile, _nativeDeleteFile, _idbDeleteFile, Filesystem_deleteFile,
    files_delete.
  keeps_auto.
Qed.

(** C2.  When the record-persistence step of [addBook] rejects, [addBook]
    rejects with the same reason and the in-memory cache is what it was
    before the call: the new record is not added to it. *)
Theorem addBook_failed_persistence_keeps_cache h meta fileData s e :
  fst (_saveBook h (new_book h meta) s) = Throw e ->
  fst (addBook h meta fileData s) = Throw e /\
  books (snd (addBook h meta fileData s)) = books s.
Proof.
  intros Hfail. unfold addBook, bind.
  pose proof (_saveBook_keeps_books h (new_book h meta) s) as Hk.
  destruct (_saveBook h (new_book h meta) s) as [[[]|e'] s']; simpl in *;
    [discriminate|].
  split; [congruence | exact Hk].
Qed.

Lemma addBook_failed_persistence_keeps_cache_witness :
  fst (addBook (failing is_books_put) pdf_meta (Some pdf_bytes) two_books)
  = Throw RequestError
  /\ books (snd (addBook (failing is_books_put) pdf_meta (Some pdf_bytes) two_books))
     = books two_books.
Proof.
  exact (addBook_failed_persistence_keeps_cache (failing is_books_put) pdf_meta
           (Some pdf_bytes) two_books RequestError eq_refl).
Defined.

(** ** The codec *)

Ltac ndiv_lia := zify; Z.to_euclidean_division_equations; lia.

Lemma list_ind3 {A} (P : list A -> Prop) :
  P [] -> (forall a, P [a]) -> (forall a b, P [a; b]) ->
  (forall a b c r, P r -> P (a :: b :: c :: r)) -> forall l, P l.
Proof.
  intros H0 H1 H2 H3 l.
  assert (HH : P l /\ (forall a, P (a :: l)) /\ (forall a b, P (a :: b :: l))).
  { induction l as [|x l (IH0 & IH1 & IH2)]; [auto|].
    split; [apply IH1|]. split; [intros; apply IH2|]. intros a b. apply H3, IH0. }
  apply HH.
Qed.

(** The loop has consumed the whole buffer when it stops. *)
Lemma chunk_loop_spec fuel bytes i binary :
  (length bytes <= N.to_nat i + fuel * N.to_nat chunkSize)%nat ->
  chunk_loop fuel bytes i binary
  = binary ++ String_fromCharCode (skipn (N.to_nat i) bytes).
Proof.
  revert i binary. induction fuel as [|fuel IH]; intros i binary Hf; simpl.
  - rewrite skipn_all2 by lia. simpl. now rewrite app_nil_r.
  - destruct (N.ltb_spec i (N.of_nat (length bytes))) as [Hlt|Hge].
    + rewrite IH by (unfold chunkSize in *; lia).
      rewrite <- app_assoc. f_equal. unfold String_fromCharCode, subarray.
      rewrite <- map_app. f_equal.
      replace (N.to_nat (i + chunkSize) - N.to_nat i)%nat
        with (N.to_nat chunkSize) by lia.
      replace (N.to_nat (i + chunkSize))
        with (N.to_nat chunkSize + N.to_nat i)%nat by lia.
      rewrite <- skipn_skipn. apply firstn_skipn.
    + rewrite skipn_all2 by lia. simpl. now rewrite app_nil_r.
Qed.

Lemma binary_of_buffer buffer :
  chunk_loop (S (length buffer)) buffer 0 [] = String_fromCharCode buffer.
Proof. rewrite chunk_loop_spec; [reflexivity | unfold chunkSize; lia]. Qed.

Lemma sextet_in i : i < 64 -> In i sextets.
Proof.
  intros H. unfold sextets. apply in_map_iff. exists (N.to_nat i).
  split; [lia | apply in_seq; lia].
Qed.

Lemma b64_index_char i : i < 64 -> b64_index (b64_char i) = Some i.
Proof.
  intros H.
  assert (A : forallb (fun i => match b64_index (b64_char i) with
                                | Some j => j =? i
                                | None => false
                                end) sextets = true)
    by (vm_compute; reflexivity).
  rewrite forallb_forall in A. specialize (A i (sextet_in i H)).
  destruct (b64_index (b64_char i)); [|discriminate].
  apply N.eqb_eq in A. now subst.
Qed.

Lemma b64_char_plain i :
  i < 64 ->
  is_ascii_whitespace (b64_char i) = false /\ b64_char i <> EQUALS
  /\ b64_char i <> COMMA.
Proof.
  intros H.
  assert (A : forallb (fun i => negb (is_ascii_whitespace (b64_char i))
                                && negb (b64_char i =? EQUALS)
                                && negb (b64_char i =? COMMA)) sextets = true)
    by (vm_compute; reflexivity).
  rewrite forallb_forall in A. specialize (A i (sextet_in i H)).
  apply andb_true_iff in A as [A A3]. apply andb_true_iff in A as [A1 A2].
  apply negb_true_iff in A1, A2, A3. apply N.eqb_neq in A2, A3. auto.
Qed.

Lemma b64_groups_bound s :
  Forall (fun c => c < 256) s -> Forall (fun i => i < 64) (b64_groups s).
Proof.
  induction s as [| a | a b | a b c r IH] using list_ind3; intros Hs; simpl.
  - constructor.
  - inversion_clear Hs. repeat constructor; ndiv_lia.
  - inversion_clear Hs as [|? ? Ha Hs']. inversion_clear Hs' as [|? ? Hb _].
    repeat constructor; ndiv_lia.
  - inversion_clear Hs as [|? ? Ha Hs']. inversion_clear Hs' as [|? ? Hb Hs''].
    inversion_clear Hs'' as [|? ? Hc Hr].
    repeat (constructor; [ndiv_lia|]). auto.
Qed.

(** Regrouping the sextets of a sequence of octets gives the octets back. *)
Lemma b64_bytes_groups s :
  Forall (fun c => c < 256) s -> b64_bytes (b64_groups s) = s.
Proof.
  induction s as [| a | a b | a b c r IH] using list_ind3; intros Hs.
  - reflexivity.
  - inversion_clear Hs. cbn [b64_groups b64_bytes]. f_equal. ndiv_lia.
  - inversion_clear Hs as [|? ? Ha Hs']. inversion_clear Hs' as [|? ? Hb _].
    cbn [b64_groups b64_bytes]. f_equal; [ndiv_lia|]. f_equal. ndiv_lia.
  - inversion_clear Hs as [|? ? Ha Hs']. inversion_clear Hs' as [|? ? Hb Hs''].
    inversion_clear Hs'' as [|? ? Hc Hr].
    cbn [b64_groups b64_bytes app]. rewrite IH by assumption.
    f_equal; [ndiv_lia|]. f_equal; [ndiv_lia|]. f_equal. ndiv_lia.
Qed.

Lemma b64_groups_length s :
  length (b64_groups s) =
  (4 * (length s / 3) + match length s mod 3 with 0 => 0 | r => S r end)%nat.
Proof.
  induction s as [| a | a b | a b c r IH] using list_ind3; try reflexivity.
  cbn [b64_groups length app]. rewrite IH.
  assert (E1 : (S (S (S (length r))) / 3 = S (length r / 3))%nat) by ndiv_lia.
  assert (E2 : (S (S (S (length r))) mod 3 = length r mod 3)%nat) by ndiv_lia.
  rewrite E1, E2. lia.
Qed.

Lemma b64_padding_cases n :
  (n mod 3 = 0 /\ b64_padding n = [])%nat \/
  (n mod 3 = 1 /\ b64_padding n = [EQUALS; EQUALS])%nat \/
  (n mod 3 = 2 /\ b64_padding n = [EQUALS])%nat.
Proof.
  unfold b64_padding.
  assert (H : (n mod 3 < 3)%nat) by (apply Nat.mod_upper_bound; lia).
  destruct (n mod 3)%nat as [|[|[|k]]]; auto. lia.
Qed.

(** Dropping the padding of an encoded text leaves its alphabet part. *)
Lemma strip_padding_encoded (body : jsstring) n :
  Forall (fun c => c <> EQUALS) body ->
  length body
  = (4 * (n / 3) + match n mod 3 with 0 => 0 | r => S r end)%nat ->
  strip_padding (body ++ b64_padding n) = body.
Proof.
  intros Hb Hl. unfold strip_padding.
  assert (Hhd : forall r, rev body <> EQUALS :: r).
  { intros r E. apply (f_equal (@rev N)) in E. rewrite rev_involutive in E.
    simpl in E. rewrite E in Hb. apply Forall_app in Hb as [_ Hb].
    inversion Hb. congruence. }
  destruct (b64_padding_cases n) as [[Hm Hp]|[[Hm Hp]|[Hm Hp]]];
    rewrite Hp, Hm in *.
  - rewrite app_nil_r. destruct (_ =? _)%nat; [|reflexivity].
    destruct (rev body) as [|x r] eqn:E; [reflexivity|].
    unfold EQUALS in *.
    destruct (N.eq_dec x 61) as [->|Hx]; [exfalso; eapply Hhd; eauto|].
    destruct x as [|p]; [reflexivity|].
    repeat (destruct p as [p|p|]; try reflexivity; try congruence).
  - rewrite length_app, Hl. simpl length.
    replace ((4 * (n / 3) + 2 + 2) mod 4 =? 0)%nat with true
      by (symmetry; apply Nat.eqb_eq; ndiv_lia).
    rewrite rev_app_distr. simpl. apply rev_involutive.
  - rewrite length_app, Hl. simpl length.
    replace ((4 * (n / 3) + 3 + 1) mod 4 =? 0)%nat with true
      by (symmetry; apply Nat.eqb_eq; ndiv_lia).
    rewrite rev_app_distr. simpl.
    destruct (rev body) as [|x r] eqn:E;
      [now rewrite <- (rev_involutive body), E|].
    unfold EQUALS in *.
    destruct (N.eq_dec x 61) as [->|Hx]; [exfalso; eapply Hhd; eauto|].
    rewrite <- E, rev_involutive.
    destruct x as [|p]; [reflexivity|].
    repeat (destruct p as [p|p|]; try reflexivity; try congruence).
Qed.

Lemma b64_indices_chars v :
  Forall (fun i => i < 64) v -> b64_indices (List.map b64_char v) = Some v.
Proof.
  induction 1 as [|i v Hi _ IH]; simpl; [reflexivity|].
  now rewrite b64_index_char, IH.
Qed.

Lemma filter_all {A} (f : A -> bool) l :
  Forall (fun x => f x = true) l -> List.filter f l = l.
Proof.
  induction 1 as [|x l Hx _ IH]; simpl; [reflexivity|]. now rewrite Hx, IH.
Qed.

Lemma bytes_are_units (bs : list byte) :
  Forall (fun c => c < 256) (String_fromCharCode bs).
Proof.
  unfold String_fromCharCode. apply Forall_map, Forall_forall. intros b _.
  pose proof (Byte.to_N_bounded b). lia.
Qed.

Lemma ToUint8_unit (b : byte) : ToUint8 (Byte.to_N b) = b.
Proof.
  unfold ToUint8. pose proof (Byte.to_N_bounded b).
  rewrite N.mod_small by lia. now rewrite Byte.of_to_N.
Qed.

Lemma encoded_plain s :
  Forall (fun c => c < 256) s ->
  Forall (fun c => is_ascii_whitespace c = false /\ c <> EQUALS /\ c <> COMMA)
    (List.map b64_char (b64_groups s)).
Proof.
  intros Hs. apply Forall_map.
  eapply List.Forall_impl; [|exact (b64_groups_bound s Hs)].
  intros i Hi. now apply b64_char_plain.
Qed.

(** [atob] undoes [btoa] on every string [btoa] accepts. *)
Lemma atob_encoded s :
  Forall (fun c => c < 256) s ->
  atob (List.map b64_char (b64_groups s) ++ b64_padding (length s)) = Ok s.
Proof.
  intros Hs. pose proof (encoded_plain s Hs) as Hplain.
  unfold atob. rewrite filter_all.
  2:{ apply Forall_app. split.
      - eapply List.Forall_impl; [|exact Hplain]. intros c [-> _]. reflexivity.
      - destruct (b64_padding_cases (length s)) as [[_ ->]|[[_ ->]|[_ ->]]];
          repeat constructor. }
  rewrite strip_padding_encoded.
  2:{ eapply List.Forall_impl; [|exact Hplain]. now intros c (_ & ? & _). }
  2:{ rewrite length_map. apply b64_groups_length. }
  rewrite length_map, b64_groups_length.
  replace ((4 * (length s / 3) + match (length s mod 3)%nat with
                                 | 0%nat => 0
                                 | S _ as r => S r
                                 end) mod 4 =? 1)%nat
    with false.
  2:{ symmetry. apply Nat.eqb_neq.
      assert (Hm : (length s mod 3 < 3)%nat) by (apply Nat.mod_upper_bound; lia).
      destruct (length s mod 3)%nat as [|[|[|k]]]; ndiv_lia. }
  rewrite b64_indices_chars by now apply b64_groups_bound.
  now rewrite b64_bytes_groups.
Qed.

Lemma encoded_has_no_comma s :
  Forall (fun c => c < 256) s ->
  includes COMMA (List.map b64_char (b64_groups s) ++ b64_padding (length s))
  = false.
Proof.
  intros Hs. unfold includes. apply not_true_is_false. intros E.
  apply existsb_exists in E as (c & Hc & E). apply N.eqb_eq in E. subst c.
  apply in_app_or in Hc as [Hc|Hc].
  - pose proof (encoded_plain s Hs) as Hp. rewrite List.Forall_forall in Hp.
    now destruct (Hp _ Hc) as (_ & _ & ?).
  - destruct (b64_padding_cases (length s)) as [[_ E]|[[_ E]|[_ E]]];
      rewrite E in Hc; simpl in Hc; unfold COMMA, EQUALS in Hc;
      intuition discriminate.
Qed.

(** C1.  Encoding any byte sequence, of any length and content, always
    succeeds, and decoding the text it gives returns exactly those bytes. *)
Theorem codec_round_trip (b : list byte) :
  exists text,
    _arrayBufferToBase64 b = Ok text /\ _base64ToArrayBuffer text = Ok b.
Proof.
  unfold _arrayBufferToBase64. rewrite binary_of_buffer.
  pose proof (bytes_are_units b) as Hu.
  unfold btoa. replace (forallb _ _) with true.
  2:{ symmetry. apply forallb_forall. intros c Hc.
      rewrite List.Forall_forall in Hu. apply N.leb_le.
      specialize (Hu c Hc). lia. }
  eexists. split; [reflexivity|].
  unfold _base64ToArrayBuffer, b64_arg.
  rewrite encoded_has_no_comma, atob_encoded by assumption. f_equal.
  unfold String_fromCharCode. rewrite map_map.
  rewrite <- (map_id b) at 2. apply map_ext. intros x. apply ToUint8_unit.
Qed.

(** *** What the decoder strips *)

Lemma split_head sep s : exists segs, split sep s = up_to sep s :: segs.
Proof.
  induction s as [|c r [segs IH]]; simpl; [now exists []|].
  destruct (c =? sep); [eauto|]. rewrite IH. eauto.
Qed.

Lemma split_second sep s :
  includes sep s = true ->
  nth_error (split sep s) 1 = Some (up_to sep (after_first sep s)).
Proof.
  unfold includes. induction s as [|c r IH]; simpl; [discriminate|].
  rewrite (N.eqb_sym sep c). destruct (c =? sep) eqn:E; simpl.
  - intros _. destruct (split_head sep r) as [segs ->]. reflexivity.
  - intros H. specialize (IH H).
    destruct (split sep r) as [|seg segs]; [discriminate|]. exact IH.
Qed.

Lemma up_to_without sep s : includes sep s = false -> up_to sep s = s.
Proof.
  unfold includes. induction s as [|c r IH]; simpl; [reflexivity|].
  rewrite (N.eqb_sym sep c). destruct (c =? sep); simpl; [discriminate|].
  intros H. now rewrite IH.
Qed.

Lemma count_of_zero sep s : count_of sep s = 0%nat <-> includes sep s = false.
Proof.
  unfold count_of, includes. induction s as [|c r IH]; simpl; [tauto|].
  destruct (sep =? c); simpl; [split; discriminate | exact IH].
Qed.

Lemma count_of_after_first sep s :
  includes sep s = true -> count_of sep s = S (count_of sep (after_first sep s)).
Proof.
  unfold count_of, includes. induction s as [|c r IH]; simpl; [discriminate|].
  rewrite (N.eqb_sym c sep). destruct (sep =? c); simpl; [reflexivity|].
  exact IH.
Qed.

(** C9, as the code has it.  A comma-free input is decoded whole.  An input
    with a comma is decoded from the text between its first comma and its
    second comma (or its end): that is everything after the first comma
    exactly when the input has a single comma. *)
Theorem decoder_argument (base64 : jsstring) :
  _base64ToArrayBuffer base64
  = match atob (b64_arg base64) with
    | Ok binary => Ok (List.map ToUint8 binary)
    | Throw e => Throw e
    end
  /\ (includes COMMA base64 = false -> b64_arg base64 = base64)
  /\ (includes COMMA base64 = true ->
      b64_arg base64 = up_to COMMA (after_first COMMA base64))
  /\ (count_of COMMA base64 = 1%nat ->
      b64_arg base64 = after_first COMMA base64).
Proof.
  split; [reflexivity|]. unfold b64_arg. repeat split.
  - now intros ->.
  - intros H. now rewrite H, split_second.
  - intros H1.
    assert (Hinc : includes COMMA base64 = true).
    { destruct (includes COMMA base64) eqn:E; [reflexivity|].
      apply count_of_zero in E. congruence. }
    rewrite Hinc, split_second by assumption.
    apply up_to_without, count_of_zero.
    rewrite count_of_after_first in H1 by assumption. congruence.
Qed.

Lemma decoder_argument_witness :
  b64_arg (js "QQ==") = js "QQ=="
  /\ b64_arg (js "data:application/pdf;base64,QQ==") = js "QQ=="
  /\ b64_arg (js "x,QQ==,QUI=") = js "QQ==".
Proof.
  destruct (decoder_argument (js "QQ==")) as (_ & H1 & _).
  destruct (decoder_argument (js "data:application/pdf;base64,QQ=="))
    as (_ & _ & _ & H2).
  destruct (decoder_argument (js "x,QQ==,QUI=")) as (_ & _ & H3 & _).
  split; [apply H1; reflexivity|].
  split; [apply H2; reflexivity | apply H3; reflexivity].
Defined.

(** C9, counterexample.  With two commas the decoder does not work on the
    text after the first comma: it decodes the second segment alone and
    returns its byte, where the text after the first comma is not
    decodable. *)
Lemma decoder_ignores_text_after_second_comma :
  includes COMMA (js "x,QQ==,QUI=") = true
  /\ b64_arg (js "x,QQ==,QUI=") <> after_first COMMA (js "x,QQ==,QUI=")
  /\ _base64ToArrayBuffer (js "x,QQ==,QUI=") = Ok ["A"%byte]
  /\ atob (after_first COMMA (js "x,QQ==,QUI=")) = Throw InvalidCharacterError.
Proof. repeat split; vm_compute; congruence. Qed.

(** ** Symbolic execution of a method *)

(** Exposes the state transformer behind a method and splits on what the
    host and the state decide. *)
Ltac expose :=
  unfold host_call, called, lift, read, write, ret, throw, try_catch, bind in *;
  unfold set_books, set_Preferences, set_Filesystem, set_db, set_preferences,
    set_files_area, set_books_store, set_files_store, set_localStorage,
    set_calls in *;
  cbn beta iota delta [fst snd books isNative Preferences Filesystem Directory
                       db preferences files_area books_store files_store
                       localStorage calls raw_id raw_data raw_mimeType
                       file_id file_data file_mimeType negb orb andb] in *.

(** Rewrites with what is known of the tests the method makes. *)
Ltac use_facts :=
  repeat match goal with
         | H : ?x = ?v |- context [?x] =>
             lazymatch v with
             | true => idtac
             | false => idtac
             | None => idtac
             | Some _ => idtac
             end;
             lazymatch x with
             | true => fail
             | false => fail
             | None => fail
             | Some _ => fail
             | _ => rewrite H
             end
         end.

Ltac simulate := repeat (progress (expose; use_facts)).

Ltac split_on_tests :=
  simulate;
  repeat match goal with
         | |- context [if ?c then _ else _] =>
             let E := fresh "E" in destruct c eqn:E; try congruence; simulate
         | |- context [match ?x with Some _ => _ | None => _ end] =>
             let E := fresh "E" in destruct x eqn:E; try congruence; simulate
         | |- context [match ?x with Ok _ => _ | Throw _ => _ end] =>
             let E := fresh "E" in destruct x eqn:E; try congruence; simulate
         end.

(** ** Payloads in the native tier *)

Lemma find_same_id key l b :
  List.find (same_id key) l = Some b -> In b l /\ id b = key.
Proof.
  intros H. apply find_some in H as [Hin Hid]. split; [assumption|].
  now apply String.eqb_eq in Hid.
Qed.

(** C10, as the code has it.  In the native tier the MIME type of a fetched
    payload is the [fileMimeType] of the record cached under that id when the
    fetch is made, and [application/pdf] when that record is not cached or
    its [fileMimeType] is undefined or the empty string; the file written by
    a save does not depend on the MIME type given to the save. *)
Theorem native_mime_comes_from_cache h bookId s file :
  fst (_nativeGetFile h bookId s) = Ok (Some file) ->
  file_mimeType file
  = match List.find (same_id bookId) (books s) with
    | Some b =>
        match fileMimeType b with
        | Some m => if String.eqb m "" then DEFAULT_MIME else m
        | None => DEFAULT_MIME
        end
    | None => DEFAULT_MIME
    end
  /\ forall h' key data mime mime' s',
      _nativeSaveFile h' {| file_id := key; file_data := data; file_mimeType := mime |} s'
      = _nativeSaveFile h' {| file_id := key; file_data := data; file_mimeType := mime' |} s'.
Proof.
  intros H. split; [|reflexivity].
  unfold _nativeGetFile, Filesystem_readFile in H. expose.
  destruct (negb (Filesystem s) || negb (Directory s)); [discriminate|].
  destruct (fails h _); [discriminate|]. expose.
  destruct (files_area s !! _) as [content|]; [|discriminate].
  assert (Hm : file_mimeType file
               = or_default_mime (b ← List.find (same_id bookId) (books s);
                                  fileMimeType b)).
  { destruct content as [text|bytes]; expose.
    - destruct (_base64ToArrayBuffer text); [|discriminate].
      simpl in H. now inversion H.
    - simpl in H. now inversion H. }
  rewrite Hm. destruct (List.find _ _) as [b|]; [|reflexivity]. simpl.
  destruct (fileMimeType b) as [[|c m]|]; reflexivity.
Qed.

Lemma native_mime_comes_from_cache_witness :
  let s := snd (addBook quiet pdf_meta (Some pdf_bytes) native_ready) in
  exists file,
    fst (_nativeGetFile quiet (new_id quiet) s) = Ok (Some file)
    /\ file_mimeType file = DEFAULT_MIME.
Proof.
  intros s. eexists. split; [vm_compute; reflexivity|].
  refine (proj1 (native_mime_comes_from_cache quiet (new_id quiet) s _ _)).
  vm_compute. reflexivity.
Defined.

(** C10, counterexample.  A record added with an empty [fileMimeType] is
    cached with that field present and empty, yet the payload fetched for it
    carries [application/pdf], not the field's value. *)
Lemma native_mime_of_empty_type_is_default :
  let s := snd (addBook quiet untyped_meta (Some pdf_bytes) native_ready) in
  exists b file,
    List.find (same_id (new_id quiet)) (books s) = Some b
    /\ fileMimeType b = Some ""
    /\ fst (_nativeGetFile quiet (new_id quiet) s) = Ok (Some file)
    /\ file_mimeType file = "application/pdf"
    /\ Some (file_mimeType file) <> fileMimeType b.
Proof.
  intros s. eexists. eexists.
  split; [vm_compute; reflexivity|].
  split; [reflexivity|].
  split; [vm_compute; reflexivity|].
  split; [reflexivity | discriminate].
Qed.

(** ** Payloads in the web tier *)

Lemma Uint8Array_from_Array_from bytes :
  Uint8Array_from (Array_from bytes) = bytes.
Proof.
  unfold Uint8Array_from, Array_from. rewrite map_map.
  rewrite <- (map_id bytes) at 2. apply map_ext. intros b.
  pose proof (Byte.to_N_bounded b).
  rewrite Z.mod_small by lia. rewrite N2Z.id. apply ToUint8_unit.
Qed.

(** C7, as the code has it.  With the database open, a save stores the
    content as an array of numbers, one per byte.  A read returns a stored
    [ArrayBuffer] as it is, converts a stored array of numbers to an
    [ArrayBuffer], and hands back a content of any other shape unchanged,
    without converting it.  A save followed by a read of the same id returns
    the bytes, id and MIME type that were saved. *)
Theorem idb_payload_round_trip h h' s file :
  db s = true ->
  fails h (store_put_ FILES_STORE (file_id file)) = false ->
  fails h' (store_get_ FILES_STORE (file_id file)) = false ->
  let s' := snd (_idbSaveFile h file s) in
  files_store s' !! file_id file
  = Some {| raw_id := file_id file;
            raw_data := IdbArray (Array_from (Uint8Array_of (file_data file)));
            raw_mimeType := file_mimeType file |}
  /\ fst (_idbGetFile h' (file_id file) s')
     = Ok (Some {| file_id := file_id file;
                   file_data := ArrayBuffer (Uint8Array_of (file_data file));
                   file_mimeType := file_mimeType file |})
  /\ forall key raw s0,
      db s0 = true -> fails h' (store_get_ FILES_STORE key) = false ->
      files_store s0 !! key = Some raw ->
      fst (_idbGetFile h' key s0)
      = Ok (Some {| file_id := raw_id raw;
                    file_data := match raw_data raw with
                                 | IdbArrayBuffer bytes => ArrayBuffer bytes
                                 | IdbArray elems => ArrayBuffer (Uint8Array_from elems)
                                 | IdbOther view => NotABuffer view
                                 end;
                    file_mimeType := raw_mimeType raw |}).
Proof.
  intros Hdb Hput Hget s'.
  assert (Hs' : files_store s' !! file_id file
                = Some {| raw_id := file_id file;
                          raw_data := IdbArray (Array_from (Uint8Array_of (file_data file)));
                          raw_mimeType := file_mimeType file |}
                /\ db s' = true).
  { subst s'. unfold _idbSaveFile, files_put. expose. rewrite Hdb. expose.
    rewrite Hput. expose. split; [apply lookup_insert_eq | assumption]. }
  destruct Hs' as [Hstored Hdb'].
  assert (Hread : forall key raw s0,
             db s0 = true -> fails h' (store_get_ FILES_STORE key) = false ->
             files_store s0 !! key = Some raw ->
             fst (_idbGetFile h' key s0)
             = Ok (Some {| file_id := raw_id raw;
                           file_data := match raw_data raw with
                                        | IdbArrayBuffer bytes => ArrayBuffer bytes
                                        | IdbArray elems => ArrayBuffer (Uint8Array_from elems)
                                        | IdbOther view => NotABuffer view
                                        end;
                           file_mimeType := raw_mimeType raw |})).
  { intros key raw s0 Hd Hg Hl. unfold _idbGetFile, files_get. expose.
    rewrite Hd. expose. rewrite Hg. expose. rewrite Hl. reflexivity. }
  split; [exact Hstored|]. split; [|exact Hread].
  rewrite (Hread _ _ _ Hdb' Hget Hstored). simpl.
  now rewrite Uint8Array_from_Array_from.
Qed.

Lemma idb_payload_round_trip_witness :
  fst (_idbGetFile quiet "b1"
         (snd (_idbSaveFile quiet
                 {| file_id := "b1"; file_data := ArrayBuffer pdf_bytes;
                    file_mimeType := "application/pdf" |} web_ready)))
  = Ok (Some {| file_id := "b1"; file_data := ArrayBuffer pdf_bytes;
                file_mimeType := "application/pdf" |}).
Proof.
  refine (proj1 (proj2 (idb_payload_round_trip quiet quiet web_ready
                          {| file_id := "b1"; file_data := ArrayBuffer pdf_bytes;
                             file_mimeType := "application/pdf" |} _ _ _)));
    reflexivity.
Defined.

(** C7, counterexample.  A stored content that is neither an [ArrayBuffer]
    nor an array (here a typed-array view) is accepted by the read but comes
    back as it was stored: it is not turned into an [ArrayBuffer]. *)
Lemma idb_other_content_is_not_normalised :
  let stored := {| raw_id := "b1"; raw_data := IdbOther pdf_bytes;
                   raw_mimeType := "application/pdf" |} in
  let s := with_files_store {["b1" := stored]} web_ready in
  fst (_idbGetFile quiet "b1" s)
  = Ok (Some {| file_id := "b1"; file_data := NotABuffer pdf_bytes;
                file_mimeType := "application/pdf" |})
  /\ forall file bytes,
      fst (_idbGetFile quiet "b1" s) = Ok (Some file) ->
      file_data file <> ArrayBuffer bytes.
Proof.
  split; [vm_compute; reflexivity|].
  intros file bytes H. vm_compute in H. inversion H. discriminate.
Qed.

(** ** The three mutators and the cache *)

Lemma addBook_unfold h meta fileData s :
  addBook h meta fileData s
  = match _saveBook h (new_book h meta) s with
    | (Throw e, s1) => (Throw e, s1)
    | (Ok _, s1) =>
        match
          match fileData with
          | Some bytes =>
              if negb (FileType_eqb (fileType (new_book h meta)) URL)
              then _saveFile h (payload_of (new_book h meta) bytes) s1
              else (Ok tt, s1)
          | None => (Ok tt, s1)
          end
        with
        | (Throw e, s2) => (Throw e, s2)
        | (Ok _, s2) =>
            (Ok (new_book h meta), set_books (cons (new_book h meta)) s2)
        end
    end.
Proof.
  unfold addBook, bind, payload_of.
  destruct (_saveBook h (new_book h meta) s) as [[[]|e] s1]; [|reflexivity].
  destruct fileData as [bytes|]; [|reflexivity].
  destruct (negb _); [|reflexivity].
  destruct (_saveFile h _ s1) as [[[]|e] s2]; reflexivity.
Qed.

Lemma deleteBook_unfold h key s :
  deleteBook h key s
  = match _deleteBook h key s with
    | (Throw e, s1) => (Throw e, s1)
    | (Ok _, s1) =>
        match _deleteFile h key s1 with
        | (Throw e, s2) => (Throw e, s2)
        | (Ok _, s2) => (Ok tt, set_books (List.filter (other_id key)) s2)
        end
    end.
Proof.
  unfold deleteBook, bind, other_id.
  destruct (_deleteBook h key s) as [[[]|e] s1]; [|reflexivity].
  destruct (_deleteFile h key s1) as [[[]|e] s2]; reflexivity.
Qed.

Lemma updateBook_unfold h key updates s :
  updateBook h key updates s
  = match List.find (same_id key) (books s) with
    | None => (Ok tt, s)
    | Some updated =>
        match _saveBook h (merge updated updates) s with
        | (Throw e, s1) => (Throw e, s1)
        | (Ok _, s1) =>
            (Ok tt, set_books (List.map (replace_id key (merge updated updates))) s1)
        end
    end.
Proof.
  unfold updateBook, bind, read, ret, replace_id.
  destruct (List.find (same_id key) (books s)) as [updated|]; [|reflexivity].
  destruct (_saveBook h (merge updated updates) s) as [[[]|e] s1]; reflexivity.
Qed.

(** What each mutator does to the cache, by outcome. *)
Lemma addBook_cache h meta fileData s :
  match fst (addBook h meta fileData s) with
  | Ok book =>
      book = new_book h meta
      /\ books (snd (addBook h meta fileData s)) = new_book h meta :: books s
  | Throw _ => books (snd (addBook h meta fileData s)) = books s
  end.
Proof.
  rewrite addBook_unfold.
  pose proof (_saveBook_keeps_books h (new_book h meta) s) as H1.
  destruct (_saveBook h (new_book h meta) s) as [[[]|e] s1]; simpl in *;
    [|assumption].
  assert (H2 : forall bytes,
             books (snd (_saveFile h (payload_of (new_book h meta) bytes) s1))
             = books s) by (intros; now rewrite _saveFile_keeps_books).
  destruct fileData as [bytes|]; [destruct (negb _)|]; simpl;
    try (split; [reflexivity | now rewrite H1]).
  specialize (H2 bytes).
  destruct (_saveFile h _ s1) as [[[]|e] s2]; simpl in *; [|assumption].
  split; [reflexivity | now rewrite H2].
Qed.

Lemma deleteBook_cache h key s :
  books (snd (deleteBook h key s))
  = match fst (deleteBook h key s) with
    | Ok _ => List.filter (other_id key) (books s)
    | Throw _ => books s
    end.
Proof.
  rewrite deleteBook_unfold.
  pose proof (_deleteBook_keeps_books h key s) as H1.
  destruct (_deleteBook h key s) as [[[]|e] s1]; simpl in *; [|assumption].
  pose proof (_deleteFile_keeps_books h key s1) as H2.
  destruct (_deleteFile h key s1) as [[[]|e] s2]; simpl in *; congruence.
Qed.

Lemma updateBook_cache h key updates s :
  books (snd (updateBook h key updates s))
  = match List.find (same_id key) (books s), fst (updateBook h key updates s) with
    | Some updated, Ok _ =>
        List.map (replace_id key (merge updated updates)) (books s)
    | _, _ => books s
    end.
Proof.
  rewrite updateBook_unfold.
  destruct (List.find (same_id key) (books s)) as [updated|]; [|reflexivity].
  pose proof (_saveBook_keeps_books h (merge updated updates) s) as H1.
  destruct (_saveBook h (merge updated updates) s) as [[[]|e] s1]; simpl in *;
    congruence.
Qed.

Lemma filter_absent key (l : list UserEbook) :
  Forall (fun b => id b <> key) l -> List.filter (other_id key) l = l.
Proof.
  intros H. apply filter_all. eapply List.Forall_impl; [|exact H].
  intros b Hb. unfold other_id, same_id. apply negb_true_iff.
  now apply String.eqb_neq.
Qed.

(** The list [_saveBook] writes in the native tier. *)
Lemma _saveBook_native h book s :
  isNative s = true -> Preferences s = true ->
  fails h (Preferences_set_ PREFS_BOOKS_KEY) = false ->
  fst (_saveBook h book s) = Ok tt
  /\ preferences (snd (_saveBook h book s)) !! PREFS_BOOKS_KEY
     = Some (if found_index (same_id (id book)) (books s)
             then List.map (replace_id (id book) book) (books s)
             else book :: books s).
Proof.
  intros Hn Hp Hf. unfold _saveBook, _nativeSaveBooks, Preferences_set. expose.
  rewrite Hn. expose. rewrite Hp. expose. rewrite Hf. expose.
  split; [reflexivity|]. rewrite lookup_insert_eq. reflexivity.
Qed.

Lemma _saveBook_web h book s :
  isNative s = false -> db s = true ->
  fst (_saveBook h book s) = Ok tt ->
  books_store (snd (_saveBook h book s)) = <[id book := book]> (books_store s).
Proof.
  intros Hn Hd. unfold _saveBook, _idbSaveBook, books_put. expose.
  rewrite Hn. expose. rewrite Hd. expose.
  destruct (fails h _); expose; [discriminate | reflexivity].
Qed.

Lemma find_replaced key newBook l updated :
  List.find (same_id key) l = Some updated ->
  id newBook = key ->
  List.find (same_id key) (List.map (replace_id key newBook) l) = Some newBook.
Proof.
  intros Hf Hid. induction l as [|b l IH]; simpl in *; [discriminate|].
  change (replace_id key newBook b) with (if same_id key b then newBook else b).
  destruct (same_id key b) eqn:E.
  - unfold same_id. rewrite Hid, String.eqb_refl. reflexivity.
  - rewrite E. auto.
Qed.

Lemma found_index_of_find key l updated :
  List.find (same_id key) l = Some updated -> found_index (same_id key) l = true.
Proof.
  intros H. apply find_some in H as [Hin Hid]. unfold found_index.
  apply existsb_exists. eauto.
Qed.

(** C5, as the code has it.  An update whose partial fields contain neither
    [id] nor [addedDate] builds a record with the id and the date of the
    cached one, and that record is what is cached and what is stored when
    the update resolves; when it rejects the cache is left as it was. *)
Theorem updateBook_keeps_id_and_addedDate h key updates s updated :
  List.find (same_id key) (books s) = Some updated ->
  u_id updates = None ->
  u_addedDate updates = None ->
  let newBook := merge updated updates in
  let s' := snd (updateBook h key updates s) in
  id newBook = id updated /\ addedDate newBook = addedDate updated
  /\ (fst (updateBook h key updates s) = Ok tt ->
      List.find (same_id key) (books s') = Some newBook
      /\ (isNative s = false -> db s = true ->
          books_store s' !! key = Some newBook)
      /\ (isNative s = true -> Preferences s = true ->
          fails h (Preferences_set_ PREFS_BOOKS_KEY) = false ->
          preferences s' !! PREFS_BOOKS_KEY = Some (books s')))
  /\ (forall e, fst (updateBook h key updates s) = Throw e -> books s' = books s).
Proof.
  intros Hfind Hid Hdate newBook s'.
  assert (Hnid : id newBook = id updated)
    by (subst newBook; unfold merge; simpl; now rewrite Hid).
  assert (Hndate : addedDate newBook = addedDate updated)
    by (subst newBook; unfold merge; simpl; now rewrite Hdate).
  destruct (find_same_id _ _ _ Hfind) as [_ Hkey].
  split; [assumption|]. split; [assumption|].
  pose proof (updateBook_cache h key updates s) as Hcache.
  rewrite Hfind in Hcache. fold newBook s' in Hcache.
  split.
  - intros Hok. rewrite Hok in Hcache. split; [|split].
    + rewrite Hcache. eapply find_replaced; [eassumption | congruence].
    + intros Hn Hd. subst s'. rewrite updateBook_unfold, Hfind in Hok |- *.
      fold newBook in Hok |- *.
      pose proof (_saveBook_web h newBook s Hn Hd) as Hw.
      destruct (_saveBook h newBook s) as [[[]|e] s1]; simpl in *;
        [|discriminate].
      rewrite Hw by reflexivity. rewrite Hnid, Hkey. apply lookup_insert_eq.
    + intros Hn Hp Hf. rewrite Hcache. subst s'.
      rewrite updateBook_unfold, Hfind. fold newBook.
      destruct (_saveBook_native h newBook s Hn Hp Hf) as [_ Hw].
      destruct (_saveBook h newBook s) as [[[]|e] s1]; simpl in *.
      * rewrite Hw, Hnid, Hkey, (found_index_of_find _ _ _ Hfind). reflexivity.
      * rewrite Hw, Hnid, Hkey, (found_index_of_find _ _ _ Hfind). reflexivity.
  - intros e He. now rewrite He in Hcache.
Qed.

Lemma updateBook_keeps_id_and_addedDate_witness :
  let b := book_of "b1" "2024-01-02" None in
  let s := with_books [b] web_ready in
  let s' := snd (updateBook quiet "b1" (retitle "New") s) in
  List.find (same_id "b1") (books s') = Some (merge b (retitle "New"))
  /\ books_store s' !! "b1" = Some (merge b (retitle "New"))
  /\ id (merge b (retitle "New")) = "b1"
  /\ addedDate (merge b (retitle "New")) = "2024-01-02".
Proof.
  intros b s s'.
  destruct (updateBook_keeps_id_and_addedDate quiet "b1" (retitle "New") s b
              eq_refl eq_refl eq_refl) as (H1 & H2 & H3 & _).
  destruct (H3 eq_refl) as (H4 & H5 & _).
  exact (conj H4 (conj (H5 eq_refl eq_refl) (conj H1 H2))).
Defined.

(** C5, counterexample.  [Partial<UserEbook>] admits [addedDate] and [id];
    an update carrying either one overwrites it in the cached and in the
    stored record. *)
Lemma updateBook_overwrites_id_and_addedDate :
  let s := with_books [book_of "b1" "2024-01-02" None] web_ready in
  let s1 := snd (updateBook quiet "b1" (redate "1999-01-01") s) in
  let s2 := snd (updateBook quiet "b1" (reidentify "b2") s) in
  List.map addedDate (books s) = ["2024-01-02"]
  /\ fst (updateBook quiet "b1" (redate "1999-01-01") s) = Ok tt
  /\ List.map addedDate (books s1) = ["1999-01-01"]
  /\ addedDate <$> books_store s1 !! "b1" = Some "1999-01-01"
  /\ List.map id (books s) = ["b1"]
  /\ List.map id (books s2) = ["b2"].
Proof. repeat split; vm_compute; reflexivity. Qed.

(** ** Deleting *)

(** In the native tier neither the rewrite of the record list nor the
    removal of the payload file can make [deleteBook] reject. *)
Lemma native_deleteBook_resolves h key s :
  isNative s = true -> fst (deleteBook h key s) = Ok tt.
Proof.
  intros Hn. unfold deleteBook, _deleteBook, _deleteFile, _nativeSaveBooks,
    _nativeDeleteFile, _localStorageSaveBooks, Preferences_set,
    localStorage_setItem, Filesystem_deleteFile.
  split_on_tests; reflexivity.
Qed.

Lemma native_deleteBook_preferences h key s :
  isNative s = true ->
  preferences (snd (deleteBook h key s))
  = if Preferences s && negb (fails h (Preferences_set_ PREFS_BOOKS_KEY))
    then <[PREFS_BOOKS_KEY := List.filter (other_id key) (books s)]> (preferences s)
    else preferences s.
Proof.
  intros Hn. unfold deleteBook, _deleteBook, _deleteFile, _nativeSaveBooks,
    _nativeDeleteFile, _localStorageSaveBooks, Preferences_set,
    localStorage_setItem, Filesystem_deleteFile.
  simulate.
  destruct (Preferences s) eqn:Hp; simulate;
    [destruct (fails h (Preferences_set_ PREFS_BOOKS_KEY)) eqn:Hf; simulate|];
    split_on_tests; reflexivity.
Qed.

Lemma web_deleteBook_store h key s :
  isNative s = false ->
  books_store s !! key = None ->
  books_store (snd (deleteBook h key s)) = books_store s.
Proof.
  intros Hn Hk. unfold deleteBook, _deleteBook, _deleteFile, _idbDeleteBook,
    _idbDeleteFile, books_delete, files_delete.
  split_on_tests; try reflexivity; now apply delete_id.
Qed.

Lemma web_deleteBook_resolves h key s :
  isNative s = false ->
  fails h (store_delete_ BOOKS_STORE key) = false ->
  fails h (store_delete_ FILES_STORE key) = false ->
  fst (deleteBook h key s) = Ok tt.
Proof.
  intros Hn H1 H2. unfold deleteBook, _deleteBook, _deleteFile, _idbDeleteBook,
    _idbDeleteFile, books_delete, files_delete.
  split_on_tests; reflexivity.
Qed.

(** C8, as the code has it.  Deleting an id that no cached record has leaves
    the cache unchanged.  In the native tier the call never rejects, and it
    rewrites the record list kept in Preferences with the cache (unless the
    plugin is missing or its write fails), so that list is unchanged when it
    mirrored the cache.  In the web tier the records store is unchanged when
    it has no entry under the id, and the call resolves when neither delete
    request fails. *)
Theorem deleteBook_absent_id h key s :
  Forall (fun b => id b <> key) (books s) ->
  let s' := snd (deleteBook h key s) in
  books s' = books s
  /\ (isNative s = true ->
      fst (deleteBook h key s) = Ok tt
      /\ preferences s'
         = (if Preferences s && negb (fails h (Preferences_set_ PREFS_BOOKS_KEY))
            then <[PREFS_BOOKS_KEY := books s]> (preferences s)
            else preferences s)
      /\ (preferences s !! PREFS_BOOKS_KEY = Some (books s) ->
          preferences s' = preferences s))
  /\ (isNative s = false ->
      books_store s !! key = None ->
      books_store s' = books_store s
      /\ (fails h (store_delete_ BOOKS_STORE key) = false ->
          fails h (store_delete_ FILES_STORE key) = false ->
          fst (deleteBook h key s) = Ok tt)).
Proof.
  intros Habs s'. split; [|split].
  - subst s'. rewrite deleteBook_cache.
    destruct (fst (deleteBook h key s)); [now apply filter_absent | reflexivity].
  - intros Hn. split; [now apply native_deleteBook_resolves|].
    subst s'. rewrite (native_deleteBook_preferences h key s Hn).
    rewrite (filter_absent key (books s) Habs).
    split; [reflexivity|]. intros Hmirror.
    destruct (_ && _); [now apply insert_id | reflexivity].
  - intros Hn Hk. split; [now apply web_deleteBook_store|].
    intros H1 H2. now apply web_deleteBook_resolves.
Qed.

Lemma deleteBook_absent_id_witness :
  let s := with_books [book_of "b1" "2024-01-02" None] web_ready in
  let s' := snd (deleteBook quiet "nope" s) in
  books s' = books s
  /\ books_store s' = books_store s
  /\ fst (deleteBook quiet "nope" s) = Ok tt.
Proof.
  intros s s'.
  assert (Habs : Forall (fun b => id b <> "nope") (books s))
    by (repeat constructor; discriminate).
  destruct (deleteBook_absent_id quiet "nope" s Habs) as (H1 & _ & H3).
  destruct (H3 eq_refl eq_refl) as (H4 & H5).
  exact (conj H1 (conj H4 (H5 eq_refl eq_refl))).
Defined.

(** C8, counterexample.  On a native host whose Preferences read failed
    during [init], the cache is empty while Preferences still hold a record;
    deleting an id that is nowhere then replaces the stored list by the empty
    cache.  In the web tier the same call rejects when the delete request on
    the records store fails. *)
Lemma deleteBook_absent_id_can_change_records_and_reject :
  let s := snd (init (failing is_Preferences_get) native_installed) in
  let s' := snd (deleteBook quiet "nope" s) in
  books s = []
  /\ preferences s !! PREFS_BOOKS_KEY = Some [book_of "b1" "2024-01-02" None]
  /\ fst (deleteBook quiet "nope" s) = Ok tt
  /\ preferences s' !! PREFS_BOOKS_KEY = Some []
  /\ fst (deleteBook (failing is_books_delete) "nope" web_ready)
     = Throw RequestError.
Proof. repeat split; vm_compute; reflexivity. Qed.

(** ** Payload failures *)

Lemma native_saveFile_without_plugin h file s :
  isNative s = true ->
  Filesystem s && Directory s = false ->
  _saveFile h file s
  = (Ok tt, set_calls (fun l => l ++ [saveFile_ (file_id file)]) s).
Proof.
  intros Hn Hfs. unfold _saveFile, _nativeSaveFile. simulate.
  destruct (Filesystem s), (Directory s); try discriminate; reflexivity.
Qed.

(** C3, as the code has it.  A payload save that fails inside [addBook] is
    not caught: [addBook] rejects with the same reason and does not touch
    the cache.  In the native tier a missing Filesystem plugin turns the
    payload save into a silent no-op, and [deleteBook] never rejects,
    whatever the removal of the payload file does. *)
Theorem payload_failure_handling h s :
  (forall meta bytes e,
      m_fileType meta <> URL ->
      fst (_saveBook h (new_book h meta) s) = Ok tt ->
      fst (_saveFile h (payload_of (new_book h meta) bytes)
             (snd (_saveBook h (new_book h meta) s))) = Throw e ->
      fst (addBook h meta (Some bytes) s) = Throw e
      /\ books (snd (addBook h meta (Some bytes) s)) = books s)
  /\ (isNative s = true ->
      (forall key, fst (deleteBook h key s) = Ok tt)
      /\ (Filesystem s && Directory s = false ->
          forall file,
            _saveFile h file s
            = (Ok tt, set_calls (fun l => l ++ [saveFile_ (file_id file)]) s))).
Proof.
  split.
  - intros meta bytes e Hty Hsave Hfile.
    pose proof (addBook_cache h meta (Some bytes) s) as Hc.
    assert (Hr : fst (addBook h meta (Some bytes) s) = Throw e).
    { rewrite addBook_unfold.
      destruct (_saveBook h (new_book h meta) s) as [[[]|e1] s1]; simpl in *;
        [|discriminate].
      replace (FileType_eqb (m_fileType meta) URL) with false
        by (destruct (m_fileType meta); simpl; congruence).
      simpl. destruct (_saveFile h _ s1) as [[[]|e2] s2]; simpl in *; congruence. }
    rewrite Hr in Hc. auto.
  - intros Hn. split.
    + intros key. now apply native_deleteBook_resolves.
    + intros Hfs file. now apply native_saveFile_without_plugin.
Qed.

Lemma payload_failure_handling_witness :
  fst (addBook (failing is_writeFile) pdf_meta (Some pdf_bytes) native_ready)
  = Throw PluginError
  /\ books (snd (addBook (failing is_writeFile) pdf_meta (Some pdf_bytes)
                   native_ready)) = []
  /\ fst (deleteBook (failing is_writeFile) "b1" native_ready) = Ok tt.
Proof.
  destruct (payload_failure_handling (failing is_writeFile) native_ready)
    as [Hadd Hdel].
  destruct (Hadd pdf_meta pdf_bytes PluginError) as [H1 H2];
    [discriminate | reflexivity | reflexivity |].
  destruct (Hdel eq_refl) as [H3 _].
  exact (conj H1 (conj H2 (H3 "b1"))).
Defined.

(** C3, counterexample.  With a payload write that fails, [addBook] rejects
    in the native tier (the Filesystem write) and in the web tier (the put on
    the files store). *)
Lemma addBook_propagates_payload_failure :
  fst (addBook (failing is_writeFile) pdf_meta (Some pdf_bytes) native_ready)
  = Throw PluginError
  /\ fst (addBook (failing is_files_put) pdf_meta (Some pdf_bytes) web_ready)
     = Throw RequestError.
Proof. split; vm_compute; reflexivity. Qed.

(** ** The gate on payload writes *)

Section Emits.
Context (P : Call -> Prop).

Lemma emits_nothing {A} (m : M A) :
  (forall s, calls (snd (m s)) = calls s) -> emits P m.
Proof. intros H s. exists []. rewrite H, app_nil_r. auto. Qed.

Lemma emits_called c : P c -> emits P (called c).
Proof. intros Hc s. exists [c]. simpl. auto. Qed.

Lemma emits_bind {A C} (m : M A) (k : A -> M C) :
  emits P m -> (forall a, emits P (k a)) -> emits P (bind m k).
Proof.
  intros Hm Hk s. unfold bind. destruct (Hm s) as (e1 & E1 & F1).
  destruct (m s) as [[a|e] s']; simpl in *; [|eauto].
  destruct (Hk a s') as (e2 & E2 & F2). exists (e1 ++ e2).
  rewrite E2, E1, app_assoc. split; [reflexivity | now apply Forall_app].
Qed.

Lemma emits_try_catch {A} (m handler : M A) :
  emits P m -> emits P handler -> emits P (try_catch m handler).
Proof.
  intros Hm Hh s. unfold try_catch. destruct (Hm s) as (e1 & E1 & F1).
  destruct (m s) as [[a|e] s']; simpl in *; [eauto|].
  destruct (Hh s') as (e2 & E2 & F2). exists (e1 ++ e2).
  rewrite E2, E1, app_assoc. split; [reflexivity | now apply Forall_app].
Qed.

Lemma emits_host_call {A} h c e (body : M A) :
  P c -> emits P body -> emits P (host_call h c e body).
Proof.
  intros Hc Hb. unfold host_call. apply emits_bind; [now apply emits_called|].
  intros _. destruct (fails h c); [now apply emits_nothing | assumption].
Qed.
End Emits.

Ltac emits_step :=
  lazymatch goal with
  | |- emits _ (bind _ _) => apply emits_bind; [|intros ?]
  | |- emits _ (try_catch _ _) => apply emits_try_catch
  | |- emits _ (host_call _ _ _ _) => apply emits_host_call; [reflexivity|]
  | |- emits _ (if ?c then _ else _) => destruct c
  | |- emits _ (match ?x with _ => _ end) => destruct x
  | |- emits _ _ => apply emits_nothing; reflexivity
  end.

Lemma _saveBook_emits h book :
  emits (fun c => is_payload_write c = false) (_saveBook h book).
Proof.
  unfold _saveBook, _nativeSaveBooks, _idbSaveBook, _localStorageSaveBook,
    _localStorageSaveBooks, Preferences_set, localStorage_setItem, books_put.
  repeat emits_step.
Qed.

Lemma _saveFile_calls h file s :
  exists evs,
    calls (snd (_saveFile h file s)) = calls s ++ saveFile_ (file_id file) :: evs.
Proof.
  assert (H : emits (fun _ => True)
                (native <- read isNative ;;
                 if native then _nativeSaveFile h file else _idbSaveFile h file)).
  { unfold _nativeSaveFile, _idbSaveFile, Filesystem_writeFile, files_put.
    repeat emits_step. }
  unfold _saveFile, called. unfold bind at 1. unfold write at 1. cbn beta iota.
  destruct (H (set_calls (fun l => l ++ [saveFile_ (file_id file)]) s))
    as (evs & E & _).
  exists evs. rewrite E. simpl. now rewrite <- app_assoc.
Qed.

Lemma during_app s s' evs : calls s' = calls s ++ evs -> during s s' = evs.
Proof.
  intros H. unfold during. rewrite H, skipn_app, skipn_all, Nat.sub_diag.
  reflexivity.
Qed.

Lemma _saveBook_keeps_payloads h book :
  keeps files_area (_saveBook h book) /\ keeps files_store (_saveBook h book).
Proof.
  unfold _saveBook, _nativeSaveBooks, _idbSaveBook, _localStorageSaveBook,
    _localStorageSaveBooks, Preferences_set, localStorage_setItem, books_put.
  split; keeps_auto.
Qed.

(** Without a payload under the id, the data URL is [null] on every host. *)
Lemma getFileDataUrl_without_payload h key s :
  files_area s !! _nativeFilePath key = None ->
  files_store s !! key = None ->
  fst (getFileDataUrl h key s) = Ok None.
Proof.
  intros Ha Hs. unfold getFileDataUrl, _getFile, _nativeGetFile, _idbGetFile,
    Filesystem_readFile, files_get.
  split_on_tests; reflexivity.
Qed.

(** C6, as the code has it.  [addBook] enters the payload write exactly when
    the record was persisted, payload bytes were given and the file type is
    not [URL]; when the record persistence rejects, no payload write is
    attempted whatever was given.  For a record of type [URL], or added
    without bytes, no payload write of any kind is made and the payload
    stores are unchanged, so that the data URL of the new id is [null]
    provided no payload was already stored under that id. *)
Theorem payload_write_gate h meta fileData s :
  let book := new_book h meta in
  let s' := snd (addBook h meta fileData s) in
  (In (saveFile_ (id book)) (during s s')
   <-> fst (_saveBook h book s) = Ok tt
       /\ fileData <> None /\ fileType book <> URL)
  /\ (fileData = None \/ fileType book = URL ->
      Forall (fun c => is_payload_write c = false) (during s s')
      /\ files_area s' = files_area s
      /\ files_store s' = files_store s
      /\ (files_area s !! _nativeFilePath (id book) = None ->
          files_store s !! id book = None ->
          forall h', fst (getFileDataUrl h' (id book) s') = Ok None)).
Proof.
  intros book s'.
  destruct (_saveBook_emits h book s) as (evs1 & E1 & F1).
  destruct (_saveBook_keeps_payloads h book) as [Ka Ks].
  specialize (Ka s). specialize (Ks s).
  assert (Hnot : ~ In (saveFile_ (id book)) evs1).
  { intros Hin. rewrite List.Forall_forall in F1. now specialize (F1 _ Hin). }
  subst s'. rewrite addBook_unfold. fold book.
  destruct (_saveBook h book s) as [[[]|e] s1]; simpl in *.
  - destruct fileData as [bytes|];
      [destruct (FileType_eqb (m_fileType meta) URL) eqn:Ety|]; simpl.
    + assert (Hurl : m_fileType meta = URL)
        by (destruct (m_fileType meta); simpl in Ety; congruence).
      rewrite (during_app s _ evs1) by exact E1.
      split; [split; [tauto | intros (_ & _ & ?); congruence]|].
      intros _. repeat split; try assumption.
      intros Ha Hs h'. apply getFileDataUrl_without_payload; simpl; congruence.
    + assert (Hnurl : m_fileType meta <> URL)
        by (intros Hu; rewrite Hu in Ety; discriminate).
      destruct (_saveFile_calls h (payload_of book bytes) s1) as (evs2 & E2).
      assert (Hd : during s (snd (let (r, s2) := _saveFile h (payload_of book bytes) s1 in
                                  match r with
                                  | Ok _ => (Ok book, set_books (cons book) s2)
                                  | Throw e => (Throw e, s2)
                                  end))
                   = evs1 ++ saveFile_ (id book) :: evs2).
      { apply during_app.
        destruct (_saveFile h (payload_of book bytes) s1) as [[[]|e] s2];
          simpl in *; rewrite E2, E1, <- app_assoc; reflexivity. }
      destruct (_saveFile h (payload_of book bytes) s1) as [[[]|e] s2];
        simpl in *; rewrite Hd.
      * split; [|intros [?|?]; congruence].
        split; [intros _; repeat split; congruence|].
        intros _. apply in_or_app. right. now left.
      * split; [|intros [?|?]; congruence].
        split; [intros _; repeat split; congruence|].
        intros _. apply in_or_app. right. now left.
    + rewrite (during_app s _ evs1) by exact E1.
      split; [split; [tauto | intros (_ & ? & _); congruence]|].
      intros _. repeat split; try assumption.
      intros Ha Hs h'. apply getFileDataUrl_without_payload; simpl; congruence.
  - rewrite (during_app s _ evs1) by exact E1.
    split; [split; [tauto | intros (? & _); discriminate]|].
    intros _. repeat split; try assumption.
    intros Ha Hs h'. apply getFileDataUrl_without_payload; congruence.
Qed.

Lemma payload_write_gate_witness :
  let s' := snd (addBook quiet url_meta None web_ready) in
  Forall (fun c => is_payload_write c = false) (during web_ready s')
  /\ files_store s' = files_store web_ready
  /\ fst (getFileDataUrl quiet (new_id quiet) s') = Ok None.
Proof.
  intros s'.
  destruct (payload_write_gate quiet url_meta None web_ready) as [_ H].
  destruct (H (or_introl eq_refl)) as (H1 & _ & H3 & H4).
  exact (conj H1 (conj H3 (H4 eq_refl eq_refl quiet))).
Defined.

(** C6, counterexample.  Bytes are given for a PDF, but the put on the
    records store fails: [addBook] rejects before any payload write is
    attempted.  And a link-only record whose generated id is that of an
    earlier record with a payload gets that payload's data URL, not
    [null]. *)
Lemma payload_write_not_attempted_after_failed_persistence :
  let h := failing is_books_put in
  let s' := snd (addBook h pdf_meta (Some pdf_bytes) web_ready) in
  fileType (new_book h pdf_meta) <> URL
  /\ fst (addBook h pdf_meta (Some pdf_bytes) web_ready) = Throw RequestError
  /\ ~ In (saveFile_ (new_id h)) (during web_ready s')
  /\ (let s1 := snd (addBook quiet pdf_meta (Some pdf_bytes) web_ready) in
      let s2 := snd (addBook quiet url_meta None s1) in
      fileType <$> head (books s2) = Some URL
      /\ id <$> head (books s2) = Some (new_id quiet)
      /\ fst (getFileDataUrl quiet (new_id quiet) s2)
         = Ok (Some (js "data:application/pdf;base64,JVBERg=="))).
Proof.
  repeat split; try (vm_compute; reflexivity); try discriminate.
  vm_compute. intros [H|[]]. discriminate.
Qed.

(** ** Order of the cache *)

Lemma may_precede_dates a a' b b' :
  addedDate a = addedDate a' -> addedDate b = addedDate b' ->
  may_precede a b = may_precede a' b'.
Proof.
  intros Ha Hb. unfold may_precede, SortCompare, compareAdded.
  now rewrite Ha, Hb.
Qed.

Lemma forallb_may_precede_dates a a' l l' :
  addedDate a = addedDate a' ->
  List.map addedDate l = List.map addedDate l' ->
  forallb (may_precede a) l = forallb (may_precede a') l'.
Proof.
  intros Ha. revert l'. induction l as [|b l IH]; intros [|b' l'] H;
    try discriminate; [reflexivity|].
  simpl in *. injection H as Hb Hl.
  now rewrite (may_precede_dates a a' b b' Ha Hb), (IH l' Hl).
Qed.

(** Being sorted is a matter of the dates alone. *)
Lemma sorted_desc_dates l l' :
  List.map addedDate l = List.map addedDate l' -> sorted_desc l = sorted_desc l'.
Proof.
  revert l'. induction l as [|a l IH]; intros [|a' l'] H; try discriminate;
    [reflexivity|].
  simpl in *. injection H as Ha Hl.
  now rewrite (forallb_may_precede_dates a a' l l' Ha Hl), (IH l' Hl).
Qed.

Lemma forallb_filter {A} (p f : A -> bool) l :
  forallb p l = true -> forallb p (List.filter f l) = true.
Proof.
  induction l as [|x l IH]; simpl; [auto|].
  intros H. apply andb_true_iff in H as [Hx Hl].
  destruct (f x); simpl; [rewrite Hx|]; auto.
Qed.

Lemma sorted_desc_filter f l :
  sorted_desc l = true -> sorted_desc (List.filter f l) = true.
Proof.
  induction l as [|a l IH]; simpl; [auto|].
  intros H. apply andb_true_iff in H as [Ha Hl].
  destruct (f a); simpl; [|auto].
  rewrite forallb_filter by assumption. auto.
Qed.

Lemma in_ids_filter (f : UserEbook -> bool) k l :
  In k (List.map id (List.filter f l)) -> In k (List.map id l).
Proof.
  intros H. apply in_map_iff in H as (b & Hb & Hin).
  apply filter_In in Hin as [Hin _]. apply in_map_iff. eauto.
Qed.

Lemma unique_ids_filter (f : UserEbook -> bool) l :
  List.NoDup (List.map id l) -> List.NoDup (List.map id (List.filter f l)).
Proof.
  induction l as [|a l IH]; simpl; [auto|].
  intros H. inversion_clear H as [|? ? Hnin Hnd].
  destruct (f a); simpl; [|auto].
  constructor; [|auto]. intros Hin. apply Hnin. eapply in_ids_filter, Hin.
Qed.

Lemma ids_replaced key newBook l :
  id newBook = key ->
  List.map id (List.map (replace_id key newBook) l) = List.map id l.
Proof.
  intros Hid. rewrite map_map. apply map_ext. intros b.
  unfold replace_id, same_id. destruct (String.eqb (id b) key) eqn:E;
    [|reflexivity].
  apply String.eqb_eq in E. congruence.
Qed.

(** With unique ids, replacing by id touches the found record only. *)
Lemma dates_replaced key newBook updated l :
  List.NoDup (List.map id l) ->
  List.find (same_id key) l = Some updated ->
  addedDate newBook = addedDate updated ->
  List.map addedDate (List.map (replace_id key newBook) l) = List.map addedDate l.
Proof.
  intros Hnd Hfind Hdate. destruct (find_same_id _ _ _ Hfind) as [Hin Hkey].
  rewrite map_map. apply map_ext_in. intros b Hb.
  unfold replace_id, same_id. destruct (String.eqb (id b) key) eqn:E;
    [|reflexivity].
  apply String.eqb_eq in E. rewrite Hdate. f_equal.
  clear Hfind Hdate. induction l as [|a l IH]; [destruct Hin|].
  simpl in Hnd. inversion_clear Hnd as [|? ? Hnin Hnd'].
  destruct Hin as [->|Hin], Hb as [->|Hb]; auto.
  - exfalso. apply Hnin. apply in_map_iff. exists b. split; [congruence|auto].
  - exfalso. apply Hnin. apply in_map_iff. exists updated.
    split; [congruence|auto].
Qed.

Lemma step_order_kept s c : order_kept c (books s) (books (step s c)).
Proof.
  destruct c as [h [meta fileData|key updates|key]]; unfold order_kept, step.
  - pose proof (addBook_cache h meta fileData s) as H.
    destruct (fst (addBook h meta fileData s)); [right; apply H | left; exact H].
  - rewrite updateBook_cache.
    destruct (List.find _ _) as [updated|]; [|now left].
    destruct (fst (updateBook h key updates s)); [right; eauto | now left].
  - rewrite deleteBook_cache.
    destruct (fst (deleteBook h key s)); [now right | now left].
Qed.

Lemma step_keeps_sorted s c :
  sorted_desc (books s) = true -> List.NoDup (List.map id (books s)) ->
  order_safe s c = true ->
  sorted_desc (books (step s c)) = true /\ List.NoDup (List.map id (books (step s c))).
Proof.
  intros Hs Hnd Hsafe.
  destruct c as [h [meta fileData|key updates|key]]; unfold step; simpl in Hsafe.
  - apply andb_true_iff in Hsafe as [Hfresh Hdate].
    pose proof (addBook_cache h meta fileData s) as H.
    destruct (fst (addBook h meta fileData s)); [|rewrite H; auto].
    destruct H as [_ ->]. simpl. rewrite Hdate, Hs. split; [reflexivity|].
    constructor; [|assumption].
    intros Hin. apply in_map_iff in Hin as (b & Hb & Hin).
    apply negb_true_iff in Hfresh.
    assert (existsb (same_id (new_id h)) (books s) = true); [|congruence].
    apply existsb_exists. exists b. split; [assumption|].
    unfold same_id. now apply String.eqb_eq.
  - apply andb_true_iff in Hsafe as [Hid Hdate].
    rewrite updateBook_cache.
    destruct (List.find (same_id key) (books s)) as [updated|] eqn:Hfind; [|auto].
    destruct (fst (updateBook h key updates s)); [|auto].
    destruct (find_same_id _ _ _ Hfind) as [_ Hkey].
    assert (Hnid : id (merge updated updates) = key)
      by (unfold merge; simpl; destruct (u_id updates); [discriminate | exact Hkey]).
    assert (Hnd' : addedDate (merge updated updates) = addedDate updated)
      by (unfold merge; simpl; destruct (u_addedDate updates);
          [discriminate | reflexivity]).
    split.
    + rewrite <- Hs. apply sorted_desc_dates.
      eapply dates_replaced; eassumption.
    + now rewrite ids_replaced.
  - rewrite deleteBook_cache. destruct (fst (deleteBook h key s)); [|auto].
    split; [now apply sorted_desc_filter | now apply unique_ids_filter].
Qed.

(** C4, as the code has it.  From a cache that is sorted newest first and has
    unique ids, any sequence of adds, updates and deletes in which every add
    draws a fresh id at a date not earlier than the cached ones, and no
    update carries [id] or [addedDate], leaves the cache sorted newest first
    with unique ids.  Whatever the calls are, each one keeps the cached
    records in the relative order they had. *)
Theorem cache_stays_sorted s cs :
  sorted_desc (books s) = true ->
  List.NoDup (List.map id (books s)) ->
  all_order_safe s cs = true ->
  sorted_desc (books (run s cs)) = true
  /\ List.NoDup (List.map id (books (run s cs)))
  /\ forall s0 c, order_kept c (books s0) (books (step s0 c)).
Proof.
  intros Hs Hnd Hsafe.
  assert (H : sorted_desc (books (run s cs)) = true
              /\ List.NoDup (List.map id (books (run s cs)))).
  { revert s Hs Hnd Hsafe. induction cs as [|c cs IH]; intros s Hs Hnd Hsafe;
      simpl in *; [auto|].
    apply andb_true_iff in Hsafe as [Hc Hcs].
    destruct (step_keeps_sorted s c Hs Hnd Hc) as [Hs' Hnd'].
    now apply IH. }
  destruct H as [H1 H2]. split; [assumption|]. split; [assumption|].
  exact step_order_kept.
Qed.

Lemma cache_stays_sorted_witness :
  let cs := [(quiet, Update "b1" (retitle "New"));
             (quiet, Delete "b2");
             (host_on "2024-02-01T08:00:00.000Z" 1706774400000 "0.k3j9x" no_failure,
              Add pdf_meta (Some pdf_bytes))] in
  sorted_desc (books (run two_books cs)) = true
  /\ List.map addedDate (books (run two_books cs)) = ["2024-02-01"; "2024-01-03"].
Proof.
  intros cs. split; [|reflexivity].
  refine (proj1 (cache_stays_sorted two_books cs eq_refl _ eq_refl)).
  repeat constructor; simpl; intuition discriminate.
Defined.

(** C4, counterexample.  An update that carries [addedDate] puts an old date
    in front of a newer one; so does an add made when the clock is behind
    the date of a cached record; and where two cached records share an id,
    an update of a title alone replaces both by the same record and so moves
    a date. *)
Lemma cache_order_broken_by_update_and_by_clock :
  sorted_desc (books two_books) = true
  /\ List.map addedDate
       (books (run two_books [(quiet, Update "b1" (redate "1999-01-01"))]))
     = ["1999-01-01"; "2024-01-02"]
  /\ sorted_desc
       (books (run two_books [(quiet, Update "b1" (redate "1999-01-01"))]))
     = false
  /\ List.map addedDate
       (books (run two_books [(quiet, Add pdf_meta None)]))
     = ["2023-11-14"; "2024-01-03"; "2024-01-02"]
  /\ sorted_desc (books (run two_books [(quiet, Add pdf_meta None)])) = false
  /\ sorted_desc (books shared_id_books) = true
  /\ List.map addedDate
       (books (run shared_id_books [(quiet, Update "b1" (retitle "New"))]))
     = ["2024-01-03"; "2024-01-02"; "2024-01-03"]
  /\ sorted_desc
       (books (run shared_id_books [(quiet, Update "b1" (retitle "New"))]))
     = false.
Proof. repeat split; vm_compute; reflexivity. Qed.

(** ** What the loaders return *)

Lemma forallb_sort_insert (p : UserEbook -> bool) x l :
  forallb p (sort_insert x l) = p x && forallb p l.
Proof.
  induction l as [|y l IH]; simpl; [reflexivity|].
  destruct (0 <? SortCompare x y)%Z; simpl; [|reflexivity].
  rewrite IH. destruct (p x), (p y); reflexivity.
Qed.

Lemma SortCompare_dated a b ta tb :
  Date_getTime (addedDate a) = Some ta ->
  Date_getTime (addedDate b) = Some tb ->
  SortCompare a b = (tb - ta)%Z.
Proof. intros Ha Hb. unfold SortCompare, compareAdded. now rewrite Ha, Hb. Qed.

Lemma sort_insert_sorted x l :
  Forall (fun b => is_Some (Date_getTime (addedDate b))) (x :: l) ->
  sorted_desc l = true -> sorted_desc (sort_insert x l) = true.
Proof.
  intros Hv. inversion_clear Hv as [|? ? [tx Hx] Hl].
  induction l as [|y l IH]; [reflexivity|]. intros Hs.
  inversion_clear Hl as [|? ? [ty Hy] Hl']. simpl in Hs.
  apply andb_true_iff in Hs as [Hy_l Hs]. simpl.
  destruct (Z.ltb_spec 0 (SortCompare x y)) as [Hlt|Hge]; simpl.
  - rewrite forallb_sort_insert, Hy_l, (IH Hl' Hs), andb_true_r.
    unfold may_precede. rewrite (SortCompare_dated y x ty tx Hy Hx).
    rewrite (SortCompare_dated x y tx ty Hx Hy) in Hlt.
    rewrite andb_true_r. apply Z.leb_le. lia.
  - rewrite Hy_l, Hs, !andb_true_r.
    rewrite (SortCompare_dated x y tx ty Hx Hy) in Hge.
    apply andb_true_iff. split.
    + unfold may_precede. rewrite (SortCompare_dated x y tx ty Hx Hy).
      apply Z.leb_le. lia.
    + rewrite forallb_forall in Hy_l |- *. intros z Hz.
      rewrite List.Forall_forall in Hl'. destruct (Hl' z Hz) as [tz Htz].
      specialize (Hy_l z Hz). unfold may_precede in *.
      rewrite (SortCompare_dated y z ty tz Hy Htz) in Hy_l.
      rewrite (SortCompare_dated x z tx tz Hx Htz).
      apply Z.leb_le in Hy_l. apply Z.leb_le. lia.
Qed.

Lemma sort_insert_dated x l :
  Forall (fun b => is_Some (Date_getTime (addedDate b))) (x :: l) ->
  Forall (fun b => is_Some (Date_getTime (addedDate b))) (sort_insert x l).
Proof.
  intros Hv. inversion_clear Hv as [|? ? Hx Hl].
  induction Hl as [|y l Hy Hl IH]; simpl; [auto|].
  destruct (0 <? SortCompare x y)%Z; auto.
Qed.

(** The list both loaders hand to the cache is sorted newest first when
    every record carries a date of the form [addBook] writes. *)
Lemma sort_by_added_sorted l :
  Forall (fun b => is_Some (Date_getTime (addedDate b))) l ->
  sorted_desc (sort_by_added l) = true
  /\ Forall (fun b => is_Some (Date_getTime (addedDate b))) (sort_by_added l).
Proof.
  induction 1 as [|x l Hx Hl [IHs IHv]]; simpl; [auto|].
  split; [apply sort_insert_sorted | apply sort_insert_dated]; auto.
Qed.

(** * Further properties of the service *)

(** ** The codec *)

Lemma _arrayBufferToBase64_text buffer :
  _arrayBufferToBase64 buffer = Ok (base64_of buffer).
Proof.
  unfold _arrayBufferToBase64, base64_of. rewrite binary_of_buffer.
  pose proof (bytes_are_units buffer) as Hu.
  unfold btoa. replace (forallb _ _) with true.
  2:{ symmetry. apply forallb_forall. intros c Hc.
      rewrite List.Forall_forall in Hu. apply N.leb_le.
      specialize (Hu c Hc). lia. }
  unfold String_fromCharCode. now rewrite length_map.
Qed.

Lemma base64_of_decodes buffer :
  atob (base64_of buffer) = Ok (String_fromCharCode buffer)
  /\ includes COMMA (base64_of buffer) = false.
Proof.
  unfold base64_of. pose proof (bytes_are_units buffer) as Hu.
  replace (length buffer) with (length (String_fromCharCode buffer))
    by (unfold String_fromCharCode; apply length_map).
  split; [now apply atob_encoded | now apply encoded_has_no_comma].
Qed.

Lemma ToUint8_units buffer :
  List.map ToUint8 (String_fromCharCode buffer) = buffer.
Proof.
  unfold String_fromCharCode. rewrite map_map.
  rewrite <- (map_id buffer) at 2. apply map_ext. intros x. apply ToUint8_unit.
Qed.

(** X1.  Encoding never fails, whatever the bytes; the text it gives has four
    characters for every three bytes, rounded up, and every character is of
    the radix-64 alphabet or the padding sign: no comma, no white space. *)
Theorem encoded_text_shape (buffer : list byte) :
  exists text,
    _arrayBufferToBase64 buffer = Ok text
    /\ length text = (4 * ((length buffer + 2) / 3))%nat
    /\ forallb is_b64_unit text = true
    /\ includes COMMA text = false.
Proof.
  exists (base64_of buffer). split; [apply _arrayBufferToBase64_text|].
  split; [|split; [|apply base64_of_decodes]].
  - unfold base64_of. rewrite length_app, length_map, b64_groups_length.
    unfold String_fromCharCode. rewrite length_map.
    destruct (b64_padding_cases (length buffer)) as [[Hm ->]|[[Hm ->]|[Hm ->]]];
      rewrite Hm; simpl length; ndiv_lia.
  - unfold base64_of. rewrite forallb_app. apply andb_true_iff. split.
    + apply forallb_forall. intros c Hc. apply in_map_iff in Hc as (i & <- & Hi).
      pose proof (b64_groups_bound _ (bytes_are_units buffer)) as Hb.
      rewrite List.Forall_forall in Hb. unfold is_b64_unit.
      now rewrite (b64_index_char i (Hb i Hi)).
    + destruct (b64_padding_cases (length buffer)) as [[_ ->]|[[_ ->]|[_ ->]]];
        reflexivity.
Qed.

(** The second segment of a text with a comma-free head and a comma-free
    tail after its first comma. *)
Lemma b64_arg_prefixed (prefix text : jsstring) :
  includes COMMA prefix = false ->
  includes COMMA text = false ->
  b64_arg (prefix ++ COMMA :: text) = text.
Proof.
  intros Hp Ht. unfold b64_arg.
  assert (Hinc : includes COMMA (prefix ++ COMMA :: text) = true).
  { unfold includes. rewrite existsb_app. simpl. now rewrite orb_true_r. }
  rewrite Hinc, split_second by assumption.
  assert (Ha : after_first COMMA (prefix ++ COMMA :: text) = text).
  { clear Hinc. unfold includes in Hp.
    induction prefix as [|c r IH]; [reflexivity|].
    cbn [app after_first existsb] in *.
    apply orb_false_iff in Hp as [Hc Hr]. rewrite N.eqb_sym in Hc.
    rewrite Hc. auto. }
  rewrite Ha. now apply up_to_without.
Qed.

(** X2.  The decoder accepts the encoded text behind any comma-free prefix
    and a comma, as in a data URL, and gives the encoded bytes back. *)
Theorem decoder_accepts_prefixed_text (prefix : jsstring) (buffer : list byte) :
  includes COMMA prefix = false ->
  exists text,
    _arrayBufferToBase64 buffer = Ok text
    /\ _base64ToArrayBuffer (prefix ++ COMMA :: text) = Ok buffer.
Proof.
  intros Hp. exists (base64_of buffer).
  split; [apply _arrayBufferToBase64_text|].
  destruct (base64_of_decodes buffer) as [Hd Hc].
  unfold _base64ToArrayBuffer. rewrite b64_arg_prefixed by assumption.
  rewrite Hd. f_equal. apply ToUint8_units.
Qed.

Lemma decoder_accepts_prefixed_text_witness :
  exists text,
    _arrayBufferToBase64 pdf_bytes = Ok text
    /\ _base64ToArrayBuffer (js "data:application/pdf;base64" ++ COMMA :: text)
       = Ok pdf_bytes.
Proof.
  exact (decoder_accepts_prefixed_text (js "data:application/pdf;base64")
           pdf_bytes eq_refl).
Defined.

(** ** Sorting on load *)

Lemma sort_insert_perm x l : Permutation (sort_insert x l) (x :: l).
Proof.
  induction l as [|y l IH]; simpl; [reflexivity|].
  destruct (0 <? SortCompare x y)%Z; [|reflexivity].
  rewrite IH. apply perm_swap.
Qed.

Lemma sort_by_added_perm l : Permutation (sort_by_added l) l.
Proof.
  induction l as [|x l IH]; simpl; [reflexivity|].
  rewrite sort_insert_perm. now constructor.
Qed.

(** X3.  The sort of the loaders loses and invents nothing: its result is a
    permutation of the list it is given.  When every record carries a date
    of the form [addBook] writes, the result is sorted newest first. *)
Theorem loaded_list_is_sorted_permutation (l : list UserEbook) :
  Permutation (sort_by_added l) l
  /\ (Forall dated l -> sorted_desc (sort_by_added l) = true).
Proof.
  split; [apply sort_by_added_perm|].
  intros H. now apply sort_by_added_sorted.
Qed.

Lemma loaded_list_is_sorted_permutation_witness :
  sorted_desc
    (sort_by_added [book_of "b1" "2024-01-02" None; book_of "b2" "2024-01-03" None;
                    book_of "b3" "2024-01-02" None]) = true.
Proof.
  apply (proj2 (loaded_list_is_sorted_permutation _)).
  repeat constructor; vm_compute; eauto.
Defined.



(** ** Start-up *)

Lemma resolves_ret {A} (a : A) : resolves (ret a).
Proof. intros s. now exists a. Qed.

Lemma resolves_write g : resolves (write g).
Proof. intros s. now exists tt. Qed.

Lemma resolves_read {A} (g : Service -> A) : resolves (read g).
Proof. intros s. now exists (g s). Qed.

Lemma resolves_bind {A C} (m : M A) (k : A -> M C) :
  resolves m -> (forall a, resolves (k a)) -> resolves (bind m k).
Proof.
  intros Hm Hk s. unfold bind. destruct (Hm s) as [a Ha].
  destruct (m s) as [[a'|e] s']; simpl in *; [apply Hk | discriminate].
Qed.

Lemma resolves_try_catch {A} (m handler : M A) :
  resolves handler -> resolves (try_catch m handler).
Proof.
  intros Hh s. unfold try_catch.
  destruct (m s) as [[a|e] s']; simpl; [now exists a | apply Hh].
Qed.

Ltac resolves_step :=
  lazymatch goal with
  | |- resolves (try_catch _ _) => apply resolves_try_catch
  | |- resolves (bind _ _) => apply resolves_bind; [|intros ?]
  | |- resolves (ret _) => apply resolves_ret
  | |- resolves (read _) => apply resolves_read
  | |- resolves (write _) => apply resolves_write
  | |- resolves (called _) => apply resolves_write
  | |- resolves (if ?c then _ else _) => destruct c
  | |- resolves (match ?x with _ => _ end) => destruct x
  end.

Lemma _loadFromLocalStorage_resolves h : resolves (_loadFromLocalStorage h).
Proof. unfold _loadFromLocalStorage, _localStorageLoadBooks. repeat resolves_step. Qed.

Lemma init_resolves h : resolves (init h).
Proof. unfold init. apply resolves_try_catch, _loadFromLocalStorage_resolves. Qed.

Lemma init_keeps_stores h :
  keeps preferences (init h) /\ keeps files_area (init h)
  /\ keeps books_store (init h) /\ keeps files_store (init h)
  /\ keeps localStorage (init h) /\ keeps isNative (init h).
Proof.
  unfold init, _nativeLoadBooks, _getAllBooks, _openDB, _ensureEbooksDir,
    _loadFromLocalStorage, _localStorageLoadBooks, Preferences_get,
    Filesystem_mkdir, books_getAll, localStorage_getItem.
  repeat split; keeps_auto.
Qed.

(** X5.  [init] never rejects, whatever fails on the host, and it only
    reads: the Preferences, the payload files, both object stores and
    localStorage are after it what they were before, and the tier is the
    same. *)
Theorem init_resolves_and_only_reads h s :
  fst (init h s) = Ok tt
  /\ preferences (snd (init h s)) = preferences s
  /\ files_area (snd (init h s)) = files_area s
  /\ books_store (snd (init h s)) = books_store s
  /\ files_store (snd (init h s)) = files_store s
  /\ localStorage (snd (init h s)) = localStorage s
  /\ isNative (snd (init h s)) = isNative s.
Proof.
  destruct (init_keeps_stores h) as (H1 & H2 & H3 & H4 & H5 & H6).
  split; [|repeat split; auto].
  destruct (init_resolves h s) as [[] H]. exact H.
Qed.

Ltac unfold_init :=
  unfold init, _nativeLoadBooks, _getAllBooks, _openDB, _ensureEbooksDir,
    _loadFromLocalStorage, _localStorageLoadBooks, Preferences_get,
    Filesystem_mkdir, books_getAll, localStorage_getItem.



(** X7.  In a browser, when the database cannot be opened or its records
    cannot be listed, [init] fills the cache with the list kept in
    localStorage, as stored and without sorting it (with nothing when
    localStorage cannot be read); the database handle is set only when the
    open succeeded. *)
Theorem init_web_falls_back_to_localStorage h s :
  isNative s = false ->
  fails h (indexedDB_open_ DB_NAME) = true
  \/ fails h (store_getAll_ BOOKS_STORE) = true ->
  books (snd (init h s))
  = (if fails h (localStorage_getItem_ META_KEY) then []
     else stored_list (localStorage s) META_KEY)
  /\ db (snd (init h s))
     = (if fails h (indexedDB_open_ DB_NAME) then db s else true).
Proof.
  intros Hn Hf. unfold stored_list. unfold_init.
  destruct Hf as [Hf|Hf]; split; split_on_tests; reflexivity.
Qed.

Lemma init_web_falls_back_to_localStorage_witness :
  books (snd (init (failing is_open) web_installed))
  = [book_of "b0" "2023-12-31" None]
  /\ db (snd (init (failing is_open) web_installed)) = false.
Proof.
  exact (init_web_falls_back_to_localStorage (failing is_open) web_installed
           eq_refl (or_introl eq_refl)).
Defined.

(** X8.  In a browser whose database opens and lists its records, [init]
    sets the handle and fills the cache with exactly the records of the
    store, each once; the cache is sorted newest first when all their dates
    have the form [addBook] writes. *)
Theorem init_web_loads_the_store h s :
  isNative s = false ->
  fails h (indexedDB_open_ DB_NAME) = false ->
  fails h (store_getAll_ BOOKS_STORE) = false ->
  db (snd (init h s)) = true
  /\ Permutation (books (snd (init h s))) (map_to_list (books_store s)).*2
  /\ (forall b, In b (books (snd (init h s)))
                <-> exists key, books_store s !! key = Some b)
  /\ ((forall key b, books_store s !! key = Some b -> dated b) ->
      sorted_desc (books (snd (init h s))) = true).
Proof.
  intros Hn Ho Hg.
  assert (Hb : books (snd (init h s))
               = sort_by_added (merge_sort key_le (map_to_list (books_store s))).*2
               /\ db (snd (init h s)) = true).
  { unfold_init. split; split_on_tests; reflexivity. }
  destruct Hb as [Hb Hd]. split; [exact Hd|]. rewrite Hb.
  assert (Hperm : Permutation
                    (sort_by_added (merge_sort key_le (map_to_list (books_store s))).*2)
                    (map_to_list (books_store s)).*2).
  { rewrite sort_by_added_perm.
    apply Permutation_map, merge_sort_Permutation. }
  assert (Hin : forall b, In b (map_to_list (books_store s)).*2
                          <-> exists key, books_store s !! key = Some b).
  { intros b. rewrite <- list_elem_of_In, list_elem_of_fmap. split.
    - intros ([k v] & -> & Hkv). exists k. now apply elem_of_map_to_list.
    - intros (k & Hk). exists (k, b). split; [reflexivity|].
      now apply elem_of_map_to_list. }
  split; [exact Hperm|]. split.
  - intros b. rewrite <- Hin. split; apply Permutation_in;
      [exact Hperm | symmetry; exact Hperm].
  - intros Hdated. apply sort_by_added_sorted.
    apply List.Forall_forall. intros b Hb'.
    apply (Permutation_in _ (Permutation_map snd (merge_sort_Permutation key_le _))) in Hb'.
    apply Hin in Hb' as (k & Hk). exact (Hdated k b Hk).
Qed.

Lemma init_web_loads_the_store_witness :
  db (snd (init quiet web_installed)) = true
  /\ List.map id (books (snd (init quiet web_installed))) = ["b2"; "b1"]
  /\ sorted_desc (books (snd (init quiet web_installed))) = true.
Proof.
  destruct (init_web_loads_the_store quiet web_installed eq_refl eq_refl eq_refl)
    as (H1 & _ & _ & H4).
  split; [exact H1|]. split; [reflexivity|]. apply H4.
  intros key b Hb. unfold web_installed, with_books_store in Hb. simpl in Hb.
  apply lookup_insert_Some in Hb as [[_ <-]|[_ Hb]]; [vm_compute; eauto|].
  apply lookup_singleton_Some in Hb as [_ <-]. vm_compute; eauto.
Defined.

(** ** Adding *)

Lemma before_T_has_no_T s : ~ In "T"%char (list_ascii_of_string (before_T s)).
Proof.
  induction s as [|c r IH]; simpl; [tauto|].
  destruct (Ascii.eqb_spec c "T"); simpl; [tauto|].
  intros [H|H]; [congruence | auto].
Qed.

(** X9.  The record [addBook] resolves with is the record it puts at the
    head of the cache, in front of the records that were there; its id is
    the generated one and its date is the host's ISO time cut before the
    [T], so it carries no time part. *)
Theorem addBook_returns_the_cached_record h meta fileData s book :
  fst (addBook h meta fileData s) = Ok book ->
  books (snd (addBook h meta fileData s)) = book :: books s
  /\ book = new_book h meta
  /\ id book = new_id h
  /\ addedDate book = before_T (Date_toISOString h)
  /\ ~ In "T"%char (list_ascii_of_string (addedDate book)).
Proof.
  intros Hok. pose proof (addBook_cache h meta fileData s) as Hc.
  rewrite Hok in Hc. destruct Hc as [-> Hc].
  repeat split; [exact Hc|]. apply before_T_has_no_T.
Qed.

Lemma addBook_returns_the_cached_record_witness :
  books (snd (addBook quiet pdf_meta (Some pdf_bytes) two_books))
  = new_book quiet pdf_meta :: books two_books.
Proof.
  destruct (addBook_returns_the_cached_record quiet pdf_meta (Some pdf_bytes)
              two_books (new_book quiet pdf_meta) eq_refl) as (H & _).
  exact H.
Defined.

Lemma _saveFile_keeps_records h file :
  keeps preferences (_saveFile h file) /\ keeps books_store (_saveFile h file)
  /\ keeps localStorage (_saveFile h file).
Proof.
  unfold _saveFile, _nativeSaveFile, _idbSaveFile, Filesystem_writeFile, files_put.
  repeat split; keeps_auto.
Qed.

(** The state [addBook] leaves, by what the two persistence steps did. *)
Lemma addBook_preferences h meta fileData s :
  preferences (snd (addBook h meta fileData s))
  = preferences (snd (_saveBook h (new_book h meta) s)).
Proof.
  rewrite addBook_unfold.
  destruct (_saveBook h (new_book h meta) s) as [[[]|e] s1]; [|reflexivity].
  destruct fileData as [bytes|]; [destruct (negb _)|]; try reflexivity.
  destruct (_saveFile_keeps_records h (payload_of (new_book h meta) bytes))
    as [Kp' _]. specialize (Kp' s1).
  destruct (_saveFile h _ s1) as [[[]|e] s2]; simpl in *; congruence.
Qed.

(** X10.  On a native host with a working Preferences plugin, [addBook] with
    a fresh id writes the cache-to-be as the stored list before anything
    else.  When it resolves, the stored list is the cache.  When it rejects
    (the payload write failed), the record stays in the stored list while
    the cache is left without it. *)
Theorem native_addBook_stored_list h meta fileData s :
  isNative s = true ->
  Preferences s = true ->
  fails h (Preferences_set_ PREFS_BOOKS_KEY) = false ->
  existsb (same_id (new_id h)) (books s) = false ->
  let s' := snd (addBook h meta fileData s) in
  preferences s' !! PREFS_BOOKS_KEY = Some (new_book h meta :: books s)
  /\ (forall book, fst (addBook h meta fileData s) = Ok book ->
                   preferences s' !! PREFS_BOOKS_KEY = Some (books s'))
  /\ (forall e, fst (addBook h meta fileData s) = Throw e ->
                books s' = books s).
Proof.
  intros Hn Hp Hf Hfresh s'.
  assert (Hst : preferences s' !! PREFS_BOOKS_KEY = Some (new_book h meta :: books s)).
  { subst s'. rewrite addBook_preferences.
    destruct (_saveBook_native h (new_book h meta) s Hn Hp Hf) as [_ ->].
    unfold found_index. simpl id. now rewrite Hfresh. }
  pose proof (addBook_cache h meta fileData s) as Hc. fold s' in Hc.
  split; [exact Hst|]. split.
  - intros book Hok. rewrite Hok in Hc. destruct Hc as [_ ->]. exact Hst.
  - intros e He. now rewrite He in Hc.
Qed.

Lemma native_addBook_stored_list_witness :
  let s' := snd (addBook (failing is_writeFile) pdf_meta (Some pdf_bytes)
                   native_ready) in
  preferences s' !! PREFS_BOOKS_KEY = Some [new_book quiet pdf_meta]
  /\ books s' = [].
Proof.
  intros s'.
  destruct (native_addBook_stored_list (failing is_writeFile) pdf_meta
              (Some pdf_bytes) native_ready eq_refl eq_refl eq_refl eq_refl)
    as (H1 & _ & H3).
  exact (conj H1 (H3 PluginError eq_refl)).
Defined.

(** ** Deleting, further *)

Lemma filter_other_id key (l : list UserEbook) :
  Forall (fun b => id b <> key) (List.filter (other_id key) l).
Proof.
  apply List.Forall_forall. intros b Hb. apply filter_In in Hb as [_ Hb].
  unfold other_id, same_id in Hb. apply negb_true_iff in Hb.
  now apply String.eqb_neq.
Qed.

Lemma native_deleteBook_files h key s :
  isNative s = true ->
  (Filesystem s = true -> Directory s = true ->
   fails h (Filesystem_deleteFile_ (_nativeFilePath key)) = false ->
   files_area (snd (deleteBook h key s)) !! _nativeFilePath key = None)
  /\ (forall path, path <> _nativeFilePath key ->
                   files_area (snd (deleteBook h key s)) !! path
                   = files_area s !! path).
Proof.
  intros Hn. split.
  - intros Hf Hd Hfail. unfold deleteBook, _deleteBook, _deleteFile,
      _nativeSaveBooks, _nativeDeleteFile, _localStorageSaveBooks,
      Preferences_set, localStorage_setItem, Filesystem_deleteFile.
    split_on_tests; try reflexivity; try assumption; apply lookup_delete_eq.
  - intros path Hpath. unfold deleteBook, _deleteBook, _deleteFile,
      _nativeSaveBooks, _nativeDeleteFile, _localStorageSaveBooks,
      Preferences_set, localStorage_setItem, Filesystem_deleteFile.
    split_on_tests; try reflexivity; now apply lookup_delete_ne.
Qed.

(** X11.  On a native host [deleteBook] always resolves and leaves no cached
    record with the id.  With a working Preferences plugin the stored list
    is then the cache.  The payload file of the id is gone when the
    Filesystem plugin is there and its delete does not fail, and no other
    payload file is touched. *)
Theorem native_deleteBook_effect h key s :
  isNative s = true ->
  let s' := snd (deleteBook h key s) in
  fst (deleteBook h key s) = Ok tt
  /\ books s' = List.filter (other_id key) (books s)
  /\ Forall (fun b => id b <> key) (books s')
  /\ (Preferences s = true ->
      fails h (Preferences_set_ PREFS_BOOKS_KEY) = false ->
      preferences s' !! PREFS_BOOKS_KEY = Some (books s'))
  /\ (Filesystem s = true -> Directory s = true ->
      fails h (Filesystem_deleteFile_ (_nativeFilePath key)) = false ->
      files_area s' !! _nativeFilePath key = None)
  /\ (forall path, path <> _nativeFilePath key ->
                   files_area s' !! path = files_area s !! path).
Proof.
  intros Hn s'. pose proof (native_deleteBook_resolves h key s Hn) as Hok.
  pose proof (deleteBook_cache h key s) as Hc. rewrite Hok in Hc. fold s' in Hc.
  destruct (native_deleteBook_files h key s Hn) as [Hf Ho].
  split; [exact Hok|]. split; [exact Hc|].
  split; [rewrite Hc; apply filter_other_id|].
  split; [|split; [exact Hf | exact Ho]].
  intros Hp Hs. subst s'. rewrite (native_deleteBook_preferences h key s Hn).
  rewrite Hp, Hs. simpl. rewrite lookup_insert_eq. now rewrite <- Hc.
Qed.

Lemma native_deleteBook_effect_witness :
  let s' := snd (deleteBook quiet (new_id quiet) native_with_payload) in
  books s' = []
  /\ preferences s' !! PREFS_BOOKS_KEY = Some []
  /\ files_area s' !! _nativeFilePath (new_id quiet) = None.
Proof.
  intros s'.
  destruct (native_deleteBook_effect quiet (new_id quiet) native_with_payload
              eq_refl) as (_ & H2 & _ & H4 & H5 & _).
  exact (conj H2 (conj (H4 eq_refl eq_refl) (H5 eq_refl eq_refl eq_refl))).
Defined.

Lemma web_getFileDataUrl_without_payload h key s :
  isNative s = false ->
  db s = false \/ files_store s !! key = None ->
  fst (getFileDataUrl h key s) = Ok None.
Proof.
  intros Hn Hs. unfold getFileDataUrl, _getFile, _idbGetFile, files_get.
  destruct Hs as [Hs|Hs]; split_on_tests; reflexivity.
Qed.

Lemma web_deleteBook_stores h key s :
  isNative s = false -> db s = true ->
  fst (deleteBook h key s) = Ok tt ->
  books_store (snd (deleteBook h key s)) !! key = None
  /\ files_store (snd (deleteBook h key s)) !! key = None
  /\ db (snd (deleteBook h key s)) = true.
Proof.
  intros Hn Hd. unfold deleteBook, _deleteBook, _deleteFile, _idbDeleteBook,
    _idbDeleteFile, books_delete, files_delete.
  simulate.
  destruct (fails h (store_delete_ BOOKS_STORE key)) eqn:E1; simulate;
    [discriminate|].
  destruct (fails h (store_delete_ FILES_STORE key)) eqn:E2; simulate;
    [discriminate|].
  intros _. repeat split; try apply lookup_delete_eq; try assumption.
Qed.

Lemma web_deleteBook_keeps_db h key :
  keeps db (deleteBook h key) /\ keeps isNative (deleteBook h key).
Proof.
  unfold deleteBook, _deleteBook, _deleteFile, _nativeSaveBooks,
    _nativeDeleteFile, _idbDeleteBook, _idbDeleteFile, _localStorageSaveBooks,
    Preferences_set, localStorage_setItem, Filesystem_deleteFile,
    books_delete, files_delete.
  split; keeps_auto.
Qed.

(** X12.  In a browser, a [deleteBook] that resolves leaves no cached record
    with the id, no entry under it in either object store, and no data URL
    for it, on any host. *)
Theorem web_deleteBook_removes_record_and_payload h key s :
  isNative s = false ->
  fst (deleteBook h key s) = Ok tt ->
  let s' := snd (deleteBook h key s) in
  Forall (fun b => id b <> key) (books s')
  /\ (db s = true ->
      books_store s' !! key = None /\ files_store s' !! key = None)
  /\ forall h', fst (getFileDataUrl h' key s') = Ok None.
Proof.
  intros Hn Hok s'. pose proof (deleteBook_cache h key s) as Hc.
  rewrite Hok in Hc. fold s' in Hc.
  destruct (web_deleteBook_keeps_db h key) as [Kd Kn].
  specialize (Kd s). specialize (Kn s). fold s' in Kd, Kn.
  split; [rewrite Hc; apply filter_other_id|]. split.
  - intros Hd. destruct (web_deleteBook_stores h key s Hn Hd Hok) as (H1 & H2 & _).
    auto.
  - intros h'. apply web_getFileDataUrl_without_payload; [congruence|].
    destruct (db s) eqn:Hd; [right | left; congruence].
    now destruct (web_deleteBook_stores h key s Hn Hd Hok) as (_ & H2 & _).
Qed.

Lemma web_deleteBook_removes_record_and_payload_witness :
  let s' := snd (deleteBook quiet (new_id quiet) web_with_payload) in
  books s' = []
  /\ files_store s' !! new_id quiet = None
  /\ fst (getFileDataUrl quiet (new_id quiet) s') = Ok None.
Proof.
  intros s'.
  destruct (web_deleteBook_removes_record_and_payload quiet (new_id quiet)
              web_with_payload eq_refl eq_refl) as (_ & H2 & H3).
  split; [reflexivity|]. exact (conj (proj2 (H2 eq_refl)) (H3 quiet)).
Defined.

(** X13.  In a browser with its database open, when the delete on the
    records store succeeds and the delete on the files store fails,
    [deleteBook] rejects after the record has left the store: the cache
    still holds the record that is no longer stored. *)
Theorem web_deleteBook_failed_payload_delete h key s :
  isNative s = false -> db s = true ->
  fails h (store_delete_ BOOKS_STORE key) = false ->
  fails h (store_delete_ FILES_STORE key) = true ->
  let s' := snd (deleteBook h key s) in
  fst (deleteBook h key s) = Throw RequestError
  /\ books s' = books s
  /\ books_store s' !! key = None
  /\ files_store s' = files_store s.
Proof.
  intros Hn Hd H1 H2 s'. subst s'.
  unfold deleteBook, _deleteBook, _deleteFile, _idbDeleteBook, _idbDeleteFile,
    books_delete, files_delete.
  simulate. repeat split. apply lookup_delete_eq.
Qed.

Lemma web_deleteBook_failed_payload_delete_witness :
  let s' := snd (deleteBook (failing is_files_delete) (new_id quiet)
                   web_with_payload) in
  List.map id (books s') = [new_id quiet]
  /\ books_store s' !! new_id quiet = None.
Proof.
  intros s'.
  destruct (web_deleteBook_failed_payload_delete (failing is_files_delete)
              (new_id quiet) web_with_payload eq_refl eq_refl eq_refl eq_refl)
    as (_ & H2 & H3 & _).
  split; [|exact H3]. unfold s'. rewrite H2. reflexivity.
Defined.

(** ** Updating an id that is not cached *)

Lemma find_absent key (l : list UserEbook) :
  Forall (fun b => id b <> key) l -> List.find (same_id key) l = None.
Proof.
  induction 1 as [|b l Hb _ IH]; simpl; [reflexivity|].
  unfold same_id at 1. apply String.eqb_neq in Hb. now rewrite Hb.
Qed.

(** X14.  [updateBook] on an id that no cached record has resolves at once:
    it changes nothing, neither the cache nor any store, and asks nothing of
    the host, even when that id is in the durable store. *)
Theorem updateBook_unknown_id_does_nothing h key updates s :
  Forall (fun b => id b <> key) (books s) ->
  updateBook h key updates s = (Ok tt, s).
Proof.
  intros H. rewrite updateBook_unfold. now rewrite find_absent.
Qed.

Lemma updateBook_unknown_id_does_nothing_witness :
  updateBook quiet "b1" (retitle "New")
    (snd (init (failing is_Preferences_get) native_installed))
  = (Ok tt, snd (init (failing is_Preferences_get) native_installed)).
Proof.
  apply updateBook_unknown_id_does_nothing. vm_compute. constructor.
Defined.

(** ** Degraded persistence *)

Lemma findIndex_absent (p : UserEbook -> bool) l :
  existsb p l = false -> findIndex p l = None.
Proof.
  induction l as [|b l IH]; simpl; [reflexivity|].
  destruct (p b); simpl; [discriminate|]. intros H. now rewrite IH.
Qed.

(** X15.  In a browser whose database handle is not set, [addBook] never
    rejects: the record list goes to localStorage (the cache with the new
    record in front, for a fresh id, when the write succeeds), the payload is
    dropped without a word, both object stores are untouched, and there is
    no data URL for the new record. *)
Theorem web_addBook_without_database h meta fileData s :
  isNative s = false -> db s = false ->
  let s' := snd (addBook h meta fileData s) in
  fst (addBook h meta fileData s) = Ok (new_book h meta)
  /\ books s' = new_book h meta :: books s
  /\ books_store s' = books_store s
  /\ files_store s' = files_store s
  /\ (existsb (same_id (new_id h)) (books s) = false ->
      fails h (localStorage_setItem_ META_KEY) = false ->
      localStorage s' !! META_KEY = Some (books s'))
  /\ forall h', fst (getFileDataUrl h' (new_id h) s') = Ok None.
Proof.
  intros Hn Hd s'.
  assert (H : fst (addBook h meta fileData s) = Ok (new_book h meta)
              /\ books_store s' = books_store s
              /\ files_store s' = files_store s
              /\ db s' = false /\ isNative s' = false
              /\ (existsb (same_id (new_id h)) (books s) = false ->
                  fails h (localStorage_setItem_ META_KEY) = false ->
                  localStorage s' !! META_KEY = Some (new_book h meta :: books s))).
  { subst s'. unfold addBook, _saveBook, _idbSaveBook, _localStorageSaveBook,
      _localStorageSaveBooks, localStorage_setItem, _saveFile, _idbSaveFile.
    simulate.
    assert (Hid : id (new_book h meta) = new_id h) by reflexivity.
    destruct fileData as [bytes|];
      [destruct (negb (FileType_eqb (fileType (new_book h meta)) URL))|];
      simulate;
      (destruct (fails h (localStorage_setItem_ META_KEY)) eqn:Ef; simulate;
       repeat split; try assumption; try discriminate;
       intros Hfresh _; rewrite Hid, (findIndex_absent _ _ Hfresh);
       apply lookup_insert_eq). }
  destruct H as (H1 & H2 & H3 & H4 & H5 & H6).
  pose proof (addBook_cache h meta fileData s) as Hc. rewrite H1 in Hc.
  destruct Hc as [_ Hc]. fold s' in Hc.
  repeat split; try assumption.
  - intros Hfresh Hf. rewrite Hc. auto.
  - intros h'. apply web_getFileDataUrl_without_payload; auto.
Qed.

Lemma web_addBook_without_database_witness :
  let s' := snd (addBook quiet pdf_meta (Some pdf_bytes) web_without_db) in
  fst (addBook quiet pdf_meta (Some pdf_bytes) web_without_db)
  = Ok (new_book quiet pdf_meta)
  /\ localStorage s' !! META_KEY = Some [new_book quiet pdf_meta]
  /\ fst (getFileDataUrl quiet (new_id quiet) s') = Ok None.
Proof.
  intros s'.
  destruct (web_addBook_without_database quiet pdf_meta (Some pdf_bytes)
              web_without_db eq_refl eq_refl) as (H1 & _ & _ & _ & H5 & H6).
  exact (conj H1 (conj (H5 eq_refl eq_refl) (H6 quiet))).
Defined.

(** X16.  Writing the record list on a native host never rejects.  When the
    Preferences plugin is missing, or its write fails, the list goes to
    localStorage instead and the Preferences keep what they held; when that
    write fails too, nothing is stored and nothing is reported. *)
Theorem native_record_list_falls_back h l s :
  fst (_nativeSaveBooks h l s) = Ok tt
  /\ (Preferences s = true ->
      fails h (Preferences_set_ PREFS_BOOKS_KEY) = false ->
      preferences (snd (_nativeSaveBooks h l s)) !! PREFS_BOOKS_KEY = Some l
      /\ localStorage (snd (_nativeSaveBooks h l s)) = localStorage s)
  /\ (Preferences s = false
      \/ fails h (Preferences_set_ PREFS_BOOKS_KEY) = true ->
      preferences (snd (_nativeSaveBooks h l s)) = preferences s
      /\ localStorage (snd (_nativeSaveBooks h l s))
         = if fails h (localStorage_setItem_ META_KEY) then localStorage s
           else <[META_KEY := l]> (localStorage s)).
Proof.
  unfold _nativeSaveBooks, _localStorageSaveBooks, Preferences_set,
    localStorage_setItem.
  split; [split_on_tests; reflexivity|]. split.
  - intros Hp Hf. simulate. split; [apply lookup_insert_eq | reflexivity].
  - intros [Hp|Hf]; split; split_on_tests; reflexivity.
Qed.

Lemma native_record_list_falls_back_witness :
  let s' := snd (_nativeSaveBooks (failing is_Preferences_set) (books two_books)
                   native_ready) in
  preferences s' = preferences native_ready
  /\ localStorage s' !! META_KEY = Some (books two_books).
Proof.
  intros s'.
  destruct (native_record_list_falls_back (failing is_Preferences_set)
              (books two_books) native_ready) as (_ & _ & H).
  destruct (H (or_intror eq_refl)) as [H1 H2].
  split; [exact H1|]. unfold s'. rewrite H2. reflexivity.
Defined.

(** ** Fetching a payload *)

Lemma getFileDataUrl_resolves h bookId : resolves (getFileDataUrl h bookId).
Proof. unfold getFileDataUrl. apply resolves_try_catch, resolves_ret. Qed.

Lemma _getFile_keeps_isNative h key : keeps isNative (_getFile h key).
Proof.
  unfold _getFile, _nativeGetFile, _idbGetFile, Filesystem_readFile, files_get.
  keeps_auto.
Qed.

(** X17.  Neither [getFileDataUrl] nor [getFileUrl] ever rejects, whatever
    the host does and whatever is stored; and on a native host they resolve
    with the same value. *)
Theorem payload_urls_never_reject createObjectURL h bookId s :
  (exists url, fst (getFileDataUrl h bookId s) = Ok url)
  /\ (exists url, fst (getFileUrl createObjectURL h bookId s) = Ok url)
  /\ (isNative s = true ->
      fst (getFileUrl createObjectURL h bookId s)
      = fst (getFileDataUrl h bookId s)).
Proof.
  split; [apply getFileDataUrl_resolves|]. split.
  - assert (H : resolves (getFileUrl createObjectURL h bookId))
      by (unfold getFileUrl; apply resolves_try_catch, resolves_ret).
    apply H.
  - intros Hn. unfold getFileUrl, getFileDataUrl, try_catch, bind.
    pose proof (_getFile_keeps_isNative h bookId s) as Hk.
    destruct (_getFile h bookId s) as [[[stored|]|e] s1]; simpl in *;
      try reflexivity.
    unfold read, ret. simpl. now rewrite Hk, Hn.
Qed.

Lemma payload_urls_never_reject_witness :
  fst (getFileUrl blob_url quiet (new_id quiet) native_with_payload)
  = fst (getFileDataUrl quiet (new_id quiet) native_with_payload).
Proof.
  exact (proj2 (proj2 (payload_urls_never_reject blob_url quiet (new_id quiet)
                         native_with_payload)) eq_refl).
Defined.

Lemma native_saveFile_writes h file s :
  isNative s = true -> Filesystem s = true -> Directory s = true ->
  fails h (Filesystem_writeFile_ (_nativeFilePath (file_id file))) = false ->
  fst (_saveFile h file s) = Ok tt
  /\ files_area (snd (_saveFile h file s)) !! _nativeFilePath (file_id file)
     = Some (FsText (base64_of (Uint8Array_of (file_data file))))
  /\ Filesystem (snd (_saveFile h file s)) = true
  /\ Directory (snd (_saveFile h file s)) = true
  /\ isNative (snd (_saveFile h file s)) = true
  /\ books (snd (_saveFile h file s)) = books s.
Proof.
  intros Hn Hf Hd Hw. unfold _saveFile, _nativeSaveFile, Filesystem_writeFile.
  simulate. rewrite _arrayBufferToBase64_text. simulate.
  repeat split; try assumption. apply lookup_insert_eq.
Qed.

Lemma native_getFile_reads h key s text :
  isNative s = true -> Filesystem s = true -> Directory s = true ->
  fails h (Filesystem_readFile_ (_nativeFilePath key)) = false ->
  files_area s !! _nativeFilePath key = Some (FsText text) ->
  fst (_getFile h key s)
  = match _base64ToArrayBuffer text with
    | Ok bytes =>
        Ok (Some {| file_id := key; file_data := ArrayBuffer bytes;
                    file_mimeType :=
                      or_default_mime (b ← List.find (same_id key) (books s);
                                       fileMimeType b) |})
    | Throw _ => Ok None
    end.
Proof.
  intros Hn Hf Hd Hr Ht. unfold _getFile, _nativeGetFile, Filesystem_readFile.
  simulate. destruct (_base64ToArrayBuffer text); reflexivity.
Qed.

Lemma base64_of_round_trip buffer :
  _base64ToArrayBuffer (base64_of buffer) = Ok buffer.
Proof.
  destruct (base64_of_decodes buffer) as [Hd Hc].
  unfold _base64ToArrayBuffer, b64_arg. rewrite Hc, Hd. f_equal.
  apply ToUint8_units.
Qed.

(** X18.  On a native host with the Filesystem plugin, a payload saved
    without a write failure is kept as radix-64 text in the file of its id,
    and fetching that id without a read failure gives the saved bytes back
    under the same id. *)
Theorem native_payload_round_trip h h' file s :
  isNative s = true -> Filesystem s = true -> Directory s = true ->
  fails h (Filesystem_writeFile_ (_nativeFilePath (file_id file))) = false ->
  fails h' (Filesystem_readFile_ (_nativeFilePath (file_id file))) = false ->
  let s' := snd (_saveFile h file s) in
  fst (_saveFile h file s) = Ok tt
  /\ files_area s' !! _nativeFilePath (file_id file)
     = Some (FsText (base64_of (Uint8Array_of (file_data file))))
  /\ exists mime,
      fst (_getFile h' (file_id file) s')
      = Ok (Some {| file_id := file_id file;
                    file_data := ArrayBuffer (Uint8Array_of (file_data file));
                    file_mimeType := mime |}).
Proof.
  intros Hn Hf Hd Hw Hr s'.
  destruct (native_saveFile_writes h file s Hn Hf Hd Hw)
    as (H1 & H2 & H3 & H4 & H5 & _).
  split; [exact H1|]. split; [exact H2|].
  eexists. subst s'.
  rewrite (native_getFile_reads h' _ _ _ H5 H3 H4 Hr H2).
  now rewrite base64_of_round_trip.
Qed.

Lemma native_payload_round_trip_witness :
  let file := {| file_id := "b1"; file_data := ArrayBuffer pdf_bytes;
                 file_mimeType := "application/pdf" |} in
  exists mime,
    fst (_getFile quiet "b1" (snd (_saveFile quiet file native_ready)))
    = Ok (Some {| file_id := "b1"; file_data := ArrayBuffer pdf_bytes;
                  file_mimeType := mime |}).
Proof.
  intros file.
  exact (proj2 (proj2 (native_payload_round_trip quiet quiet file native_ready
                         eq_refl eq_refl eq_refl eq_refl eq_refl))).
Defined.

Lemma js_append (a b : string) : js (a +:+ b) = js a ++ js b.
Proof.
  unfold js. rewrite <- map_app. f_equal.
  induction a as [|c a IH]; simpl; [reflexivity|]. now rewrite IH.
Qed.

(** X19.  The data URL of a payload starts with [data:], and, when the type
    the [Blob] keeps has no comma, decoding the URL gives the bytes of the
    payload. *)
Theorem data_url_decodes_to_payload (buffer : FileData) (mimeType : string) :
  includes COMMA (js (Blob_type mimeType)) = false ->
  (exists rest, _arrayBufferToDataUrl buffer mimeType = js "data:" ++ rest)
  /\ _base64ToArrayBuffer (_arrayBufferToDataUrl buffer mimeType)
     = Ok (Uint8Array_of buffer).
Proof.
  intros Hc.
  set (t := match Blob_type mimeType with
            | EmptyString => "application/octet-stream"
            | String _ _ => Blob_type mimeType
            end).
  assert (Ht : includes COMMA (js t) = false)
    by (subst t; destruct (Blob_type mimeType); [reflexivity | exact Hc]).
  assert (Hurl : _arrayBufferToDataUrl buffer mimeType
                 = (js "data:" ++ js t ++ js ";base64")
                     ++ COMMA :: base64_of (Uint8Array_of buffer)).
  { unfold _arrayBufferToDataUrl, base64_of.
    replace (match Blob_type mimeType with
             | EmptyString => "application/octet-stream"
             | String a s => String a s
             end) with t by (subst t; now destruct (Blob_type mimeType)).
    rewrite !js_append. change (js ";base64,") with (js ";base64" ++ [COMMA]).
    unfold String_fromCharCode at 2. rewrite length_map.
    rewrite <- !app_assoc. reflexivity. }
  rewrite Hurl. split; [rewrite <- !app_assoc; eauto|].
  destruct (base64_of_decodes (Uint8Array_of buffer)) as [Hd Hcm].
  unfold _base64ToArrayBuffer. rewrite b64_arg_prefixed; [| |exact Hcm].
  - rewrite Hd. f_equal. apply ToUint8_units.
  - unfold includes in *. rewrite !existsb_app, Ht. reflexivity.
Qed.

Lemma data_url_decodes_to_payload_witness :
  _base64ToArrayBuffer
    (_arrayBufferToDataUrl (ArrayBuffer pdf_bytes) "application/pdf")
  = Ok pdf_bytes.
Proof.
  exact (proj2 (data_url_decodes_to_payload (ArrayBuffer pdf_bytes)
                  "application/pdf" eq_refl)).
Defined.

Lemma web_getFileDataUrl_stored h key s raw :
  isNative s = false -> db s = true ->
  fails h (store_get_ FILES_STORE key) = false ->
  files_store s !! key = Some raw ->
  fst (getFileDataUrl h key s)
  = Ok (Some (_arrayBufferToDataUrl
                match raw_data raw with
                | IdbArrayBuffer bytes => ArrayBuffer bytes
                | IdbArray elems => ArrayBuffer (Uint8Array_from elems)
                | IdbOther view => NotABuffer view
                end (raw_mimeType raw))).
Proof.
  intros Hn Hd Hg Hs. unfold getFileDataUrl, _getFile, _idbGetFile, files_get.
  simulate. reflexivity.
Qed.

(** X20.  In a browser with its database open, adding a record that is not
    a link with payload bytes, when neither put fails, resolves with the new
    record, stores it under its id, and makes the payload fetchable: the
    data URL of the new id is that of the bytes given, with the record's MIME
    type or [application/pdf] when it has none. *)
Theorem web_addBook_then_fetch h h' meta bytes s :
  isNative s = false -> db s = true ->
  m_fileType meta <> URL ->
  fails h (store_put_ BOOKS_STORE (new_id h)) = false ->
  fails h (store_put_ FILES_STORE (new_id h)) = false ->
  fails h' (store_get_ FILES_STORE (new_id h)) = false ->
  let s' := snd (addBook h meta (Some bytes) s) in
  fst (addBook h meta (Some bytes) s) = Ok (new_book h meta)
  /\ books_store s' !! new_id h = Some (new_book h meta)
  /\ fst (getFileDataUrl h' (new_id h) s')
     = Ok (Some (_arrayBufferToDataUrl (ArrayBuffer bytes)
                   (or_default_mime (m_fileMimeType meta)))).
Proof.
  intros Hn Hd Hty Hb Hf Hg s'.
  assert (Ety : FileType_eqb (m_fileType meta) URL = false)
    by (destruct (m_fileType meta); simpl; congruence).
  assert (H : fst (addBook h meta (Some bytes) s) = Ok (new_book h meta)
              /\ books_store s' !! new_id h = Some (new_book h meta)
              /\ files_store s' !! new_id h
                 = Some {| raw_id := new_id h;
                           raw_data := IdbArray (Array_from bytes);
                           raw_mimeType := or_default_mime (m_fileMimeType meta) |}
              /\ isNative s' = false /\ db s' = true).
  { subst s'. unfold addBook, _saveBook, _idbSaveBook, books_put, _saveFile,
      _idbSaveFile, files_put.
    change (id (new_book h meta)) with (new_id h).
    change (fileType (new_book h meta)) with (m_fileType meta).
    change (fileMimeType (new_book h meta)) with (m_fileMimeType meta).
    simulate. repeat split; try assumption; apply lookup_insert_eq. }
  destruct H as (H1 & H2 & H3 & H4 & H5).
  split; [exact H1|]. split; [exact H2|].
  rewrite (web_getFileDataUrl_stored h' _ _ _ H4 H5 Hg H3). simpl.
  now rewrite Uint8Array_from_Array_from.
Qed.

Lemma web_addBook_then_fetch_witness :
  fst (getFileDataUrl quiet (new_id quiet) web_with_payload)
  = Ok (Some (js "data:application/pdf;base64,JVBERg==")).
Proof.
  exact (proj2 (proj2 (web_addBook_then_fetch quiet quiet pdf_meta pdf_bytes
                         web_ready eq_refl eq_refl ltac:(discriminate)
                         eq_refl eq_refl eq_refl))).
Defined.

(** ** What each tier never calls *)

Ltac trace_done :=
  cbn [calls snd]; rewrite <- ?app_assoc;
  first [ exists []; rewrite app_nil_r; split; reflexivity
        | eexists; split; [reflexivity | reflexivity] ].

Ltac unfold_mutators :=
  unfold step, addBook, updateBook, deleteBook, _saveBook, _deleteBook, _saveFile,
    _deleteFile, _nativeSaveBooks, _nativeSaveFile, _nativeDeleteFile,
    _idbSaveBook, _idbDeleteBook, _idbSaveFile, _idbDeleteFile,
    _localStorageSaveBook, _localStorageSaveBooks, Preferences_set,
    localStorage_setItem, Filesystem_writeFile, Filesystem_deleteFile,
    books_put, books_delete, files_put, files_delete.

Lemma step_calls_of_tier s c :
  exists evs, calls (step s c) = calls s ++ evs
              /\ forallb (of_tier (isNative s)) evs = true.
Proof.
  destruct (isNative s) eqn:Hn; destruct c as [h [meta fileData|key updates|key]];
    unfold_mutators; unfold makes_only, of_tier; split_on_tests; trace_done.
Qed.

Lemma step_keeps_isNative s c : isNative (step s c) = isNative s.
Proof.
  destruct c as [h [meta fileData|key updates|key]]; unfold_mutators;
    split_on_tests; reflexivity.
Qed.

Lemma run_calls_of_tier s cs :
  isNative (run s cs) = isNative s
  /\ exists evs, calls (run s cs) = calls s ++ evs
                 /\ forallb (of_tier (isNative s)) evs = true.
Proof.
  revert s. induction cs as [|c cs IH]; intros s; simpl.
  - split; [reflexivity|]. exists []. now rewrite app_nil_r.
  - destruct (IH (step s c)) as (Hn & evs2 & E2 & F2).
    destruct (step_calls_of_tier s c) as (evs1 & E1 & F1).
    rewrite step_keeps_isNative in Hn, F2. split; [exact Hn|].
    exists (evs1 ++ evs2). rewrite E2, E1, <- app_assoc, forallb_app, F1, F2.
    auto.
Qed.

(** X21.  The tier never changes, and each tier keeps to its own storage: in
    a browser no sequence of adds, updates and deletes, no [init] and no
    fetch of a data URL ever calls a Capacitor plugin, and on a native host
    none of them ever calls IndexedDB, whatever fails. *)
Theorem tiers_keep_to_their_storage s :
  (forall cs,
      isNative (run s cs) = isNative s
      /\ forallb (of_tier (isNative s)) (during s (run s cs)) = true)
  /\ (forall h, makes_only (of_tier (isNative s)) (init h) s)
  /\ (forall h key, makes_only (of_tier (isNative s)) (getFileDataUrl h key) s).
Proof.
  split; [|split].
  - intros cs. destruct (run_calls_of_tier s cs) as (Hn & evs & E & F).
    split; [exact Hn|]. now rewrite (during_app _ _ _ E).
  - intros h. unfold makes_only, of_tier. unfold_init.
    destruct (isNative s) eqn:Hn; split_on_tests; trace_done.
  - intros h key. unfold makes_only, of_tier, getFileDataUrl, _getFile,
      _nativeGetFile, _idbGetFile, Filesystem_readFile, files_get.
    destruct (isNative s) eqn:Hn; split_on_tests;
      try match goal with
          | |- context [match ?x with FsText _ => _ | FsBytes _ => _ end] =>
              destruct x; split_on_tests
          end;
      trace_done.
Qed.

(** ** Fetching on a native host *)

(** X22.  On a native host the fetch of a payload gives [null], and never a
    rejection, when the Filesystem plugin is missing, when the read fails,
    when there is no file for the id, and when the file holds text that does
    not decode; a file read as raw bytes is returned without decoding. *)
Theorem native_fetch_edge_cases h key s :
  isNative s = true ->
  (Filesystem s && Directory s = false
   \/ fails h (Filesystem_readFile_ (_nativeFilePath key)) = true
   \/ files_area s !! _nativeFilePath key = None
   \/ (exists text e, files_area s !! _nativeFilePath key = Some (FsText text)
                      /\ _base64ToArrayBuffer text = Throw e) ->
   fst (_getFile h key s) = Ok None /\ fst (getFileDataUrl h key s) = Ok None)
  /\ (forall bytes,
         Filesystem s = true -> Directory s = true ->
         fails h (Filesystem_readFile_ (_nativeFilePath key)) = false ->
         files_area s !! _nativeFilePath key = Some (FsBytes bytes) ->
         exists mime,
           fst (_getFile h key s)
           = Ok (Some {| file_id := key; file_data := ArrayBuffer bytes;
                         file_mimeType := mime |})).
Proof.
  intros Hn. split.
  - intros Hcase.
    assert (Hg : fst (_getFile h key s) = Ok None).
    { unfold _getFile, _nativeGetFile, Filesystem_readFile.
      destruct Hcase as [Hp|[Hr|[Hm|(text & e & Ht & He)]]].
      - simulate.
        destruct (Filesystem s) eqn:Ef, (Directory s) eqn:Ed; try discriminate;
          simulate; reflexivity.
      - split_on_tests; reflexivity.
      - split_on_tests; reflexivity.
      - split_on_tests; reflexivity. }
    split; [exact Hg|]. unfold getFileDataUrl, try_catch, bind.
    destruct (_getFile h key s) as [[[stored|]|e] s1]; simpl in *;
      try reflexivity; discriminate.
  - intros bytes Hf Hd Hr Hb. eexists.
    unfold _getFile, _nativeGetFile, Filesystem_readFile. simulate. reflexivity.
Qed.

Lemma native_fetch_edge_cases_witness :
  fst (getFileDataUrl quiet "b1" (with_file "ebooks/b1.bin" (FsText (js "QQ=")) native_ready))
  = Ok None
  /\ fst (getFileDataUrl (failing is_readFile) (new_id quiet) native_with_payload)
     = Ok None.
Proof.
  split.
  - refine (proj2 (proj1 (native_fetch_edge_cases quiet "b1"
                            (with_file "ebooks/b1.bin" (FsText (js "QQ="))
                               native_ready) eq_refl) _)).
    right. right. right. exists (js "QQ="), InvalidCharacterError.
    split; reflexivity.
  - refine (proj2 (proj1 (native_fetch_edge_cases (failing is_readFile)
                            (new_id quiet) native_with_payload eq_refl) _)).
    right. left. reflexivity.
Defined.

Lemma _saveBook_native_resolves h book s :
  isNative s = true -> fst (_saveBook h book s) = Ok tt.
Proof.
  intros Hn. unfold _saveBook, _nativeSaveBooks, _localStorageSaveBooks,
    Preferences_set, localStorage_setItem.
  split_on_tests; reflexivity.
Qed.

Lemma _saveBook_keeps_plugins h book :
  keeps Filesystem (_saveBook h book) /\ keeps Directory (_saveBook h book)
  /\ keeps isNative (_saveBook h book).
Proof.
  unfold _saveBook, _nativeSaveBooks, _idbSaveBook, _localStorageSaveBook,
    _localStorageSaveBooks, Preferences_set, localStorage_setItem, books_put.
  repeat split; keeps_auto.
Qed.

(** X23.  On a native host with the Filesystem plugin, adding a record that
    is not a link with payload bytes resolves when the file write does not
    fail, whatever the Preferences do; the data URL of the new id is then
    that of the bytes given, with the MIME type of the record just cached,
    or [application/pdf] when it has none. *)
Theorem native_addBook_then_fetch h h' meta bytes s :
  isNative s = true -> Filesystem s = true -> Directory s = true ->
  m_fileType meta <> URL ->
  fails h (Filesystem_writeFile_ (_nativeFilePath (new_id h))) = false ->
  fails h' (Filesystem_readFile_ (_nativeFilePath (new_id h))) = false ->
  let s' := snd (addBook h meta (Some bytes) s) in
  fst (addBook h meta (Some bytes) s) = Ok (new_book h meta)
  /\ fst (getFileDataUrl h' (new_id h) s')
     = Ok (Some (_arrayBufferToDataUrl (ArrayBuffer bytes)
                   (or_default_mime (m_fileMimeType meta)))).
Proof.
  intros Hn Hf Hd Hty Hw Hr s'.
  assert (Ety : FileType_eqb (m_fileType meta) URL = false)
    by (destruct (m_fileType meta); simpl; congruence).
  pose proof (_saveBook_native_resolves h (new_book h meta) s Hn) as Hsb.
  destruct (_saveBook_keeps_plugins h (new_book h meta)) as (Kf & Kd & Kn).
  specialize (Kf s). specialize (Kd s). specialize (Kn s).
  subst s'. rewrite addBook_unfold.
  destruct (_saveBook h (new_book h meta) s) as [[[]|e] s1]; cbn [fst snd] in *;
    [|discriminate].
  change (fileType (new_book h meta)) with (m_fileType meta).
  rewrite Ety. cbn [negb].
  destruct (native_saveFile_writes h (payload_of (new_book h meta) bytes) s1
              ltac:(congruence) ltac:(congruence) ltac:(congruence) Hw)
    as (H1 & H2 & H3 & H4 & H5 & _).
  destruct (_saveFile h (payload_of (new_book h meta) bytes) s1)
    as [[[]|e] s2]; cbn [fst snd] in *; [|discriminate].
  split; [reflexivity|].
  change (file_id (payload_of (new_book h meta) bytes)) with (new_id h) in *.
  change (Uint8Array_of (file_data (payload_of (new_book h meta) bytes)))
    with bytes in *.
  unfold getFileDataUrl, try_catch, bind.
  pose proof (native_getFile_reads h' (new_id h)
                (set_books (cons (new_book h meta)) s2)
                (base64_of bytes) H5 H3 H4 Hr H2) as Hg.
  rewrite base64_of_round_trip in Hg.
  destruct (_getFile h' (new_id h) (set_books (cons (new_book h meta)) s2))
    as [r s3]. simpl in Hg. subst r. simpl.
  unfold same_id. now rewrite String.eqb_refl.
Qed.

Lemma native_addBook_then_fetch_witness :
  fst (getFileDataUrl quiet (new_id quiet) native_with_payload)
  = Ok (Some (js "data:application/pdf;base64,JVBERg==")).
Proof.
  exact (proj2 (native_addBook_then_fetch quiet quiet pdf_meta pdf_bytes
                  native_ready eq_refl eq_refl eq_refl ltac:(discriminate)
                  eq_refl eq_refl)).
Defined.

(** ** Text the decoder refuses *)

Lemma strip_padding_by_tests (d : jsstring) :
  strip_padding d
  = if (Nat.modulo (length d) 4 =? 0)%nat then
      match rev d with
      | x :: r =>
          if x =? EQUALS then
            match r with
            | y :: r' => if y =? EQUALS then rev r' else rev r
            | [] => rev r
            end
          else d
      | [] => d
      end
    else d.
Proof.
  unfold strip_padding, EQUALS. destruct (_ =? _)%nat; [|reflexivity].
  destruct (rev d) as [|x r]; [reflexivity|].
  destruct (N.eqb_spec x 61) as [->|Hx].
  - destruct r as [|y r']; [reflexivity|].
    destruct (N.eqb_spec y 61) as [->|Hy]; [reflexivity|].
    destruct y as [|p]; [reflexivity|].
    repeat (destruct p as [p|p|]; try reflexivity; try congruence).
  - destruct x as [|p]; [reflexivity|].
    repeat (destruct p as [p|p|]; try reflexivity; try congruence).
Qed.

Lemma strip_padding_keeps c (d : jsstring) :
  In c d -> c <> EQUALS -> In c (strip_padding d).
Proof.
  intros Hin Hc. rewrite strip_padding_by_tests.
  destruct (_ =? _)%nat; [|assumption].
  destruct (rev d) as [|x r] eqn:E; [assumption|].
  destruct (N.eqb_spec x EQUALS) as [->|Hx]; [|assumption].
  assert (Hr : In c r).
  { apply in_rev in Hin. rewrite E in Hin. destruct Hin as [<-|Hin];
      [congruence | assumption]. }
  destruct r as [|y r']; [destruct Hr|].
  destruct (N.eqb_spec y EQUALS) as [->|Hy]; [|now apply in_rev in Hr].
  destruct Hr as [<-|Hr]; [congruence | now apply in_rev in Hr].
Qed.

Lemma b64_indices_foreign c d :
  In c d -> b64_index c = None -> b64_indices d = None.
Proof.
  induction d as [|x d IH]; simpl; [tauto|].
  intros [->|Hin] Hc; [now rewrite Hc|].
  rewrite (IH Hin Hc). now destruct (b64_index x).
Qed.

(** X24.  The decoder never makes bytes out of text with a foreign
    character: a comma-free text holding a code unit that is neither of the
    radix-64 alphabet, nor the padding sign, nor white space, is refused
    with [InvalidCharacterError]. *)
Theorem decoder_refuses_foreign_characters (text : jsstring) (c : N) :
  includes COMMA text = false ->
  In c text ->
  is_b64_unit c = false ->
  is_ascii_whitespace c = false ->
  _base64ToArrayBuffer text = Throw InvalidCharacterError.
Proof.
  intros Hcomma Hin Hunit Hws.
  unfold _base64ToArrayBuffer, b64_arg. rewrite Hcomma. unfold atob.
  unfold is_b64_unit in Hunit.
  destruct (b64_index c) eqn:Hidx; [discriminate|].
  apply N.eqb_neq in Hunit.
  assert (Hd : In c (strip_padding
                       (List.filter (fun c => negb (is_ascii_whitespace c)) text))).
  { apply strip_padding_keeps; [|assumption].
    apply filter_In. split; [assumption|]. now rewrite Hws. }
  destruct (_ =? 1)%nat; [reflexivity|].
  now rewrite (b64_indices_foreign _ _ Hd Hidx).
Qed.

Lemma decoder_refuses_foreign_characters_witness :
  _base64ToArrayBuffer (js "JVBE*g==") = Throw InvalidCharacterError.
Proof.
  apply (decoder_refuses_foreign_characters (js "JVBE*g==") 42 eq_refl);
    [simpl; tauto | reflexivity | reflexivity].
Defined.

(** ** Adding, then deleting *)

(** X25.  Deleting the record an add has just returned undoes the add in the
    cache: when the id drawn was fresh and both calls resolve, the cache is
    the one before the add, whatever the hosts. *)
Theorem delete_after_add_restores_cache h h' meta fileData s book :
  existsb (same_id (new_id h)) (books s) = false ->
  fst (addBook h meta fileData s) = Ok book ->
  fst (deleteBook h' (id book) (snd (addBook h meta fileData s))) = Ok tt ->
  books (snd (deleteBook h' (id book) (snd (addBook h meta fileData s))))
  = books s.
Proof.
  intros Hfresh Hadd Hdel.
  pose proof (addBook_cache h meta fileData s) as Hc. rewrite Hadd in Hc.
  destruct Hc as [-> Hc].
  rewrite deleteBook_cache, Hdel, Hc. simpl.
  unfold other_id at 1, same_id at 1. simpl id. rewrite String.eqb_refl. simpl.
  apply filter_absent. apply List.Forall_forall. intros b Hb Hid.
  assert (existsb (same_id (new_id h)) (books s) = true); [|congruence].
  apply existsb_exists. exists b. split; [assumption|].
  unfold same_id. now apply String.eqb_eq.
Qed.

Lemma delete_after_add_restores_cache_witness :
  books (snd (deleteBook quiet (new_id quiet)
                (snd (addBook quiet pdf_meta (Some pdf_bytes) two_books))))
  = books two_books.
Proof.
  exact (delete_after_add_restores_cache quiet quiet pdf_meta (Some pdf_bytes)
           two_books (new_book quiet pdf_meta) eq_refl eq_refl eq_refl).
Defined.
